(** * Memory orchestration of the Redis agent-memory plugin (src/unnamed/part_001)

    A shallow embedding of the plugin's message normalizer, envelope stripping,
    score derivation, the [memory_recall] / [memory_store] / [memory_forget]
    tools, the summary-view manager and the [before_agent_start] /
    [agent_end] hooks, and of the configuration parser of src/src/config.ts
    ([parseMemoryConfig] with its [resolveEnvVars]).

    Conventions of the embedding:
    - JavaScript values that the code inspects dynamically are the inductive
      [jsval]; JavaScript numbers are rationals [Q] (the thresholds involved are
      0.05, 0.9, 0.95 and the configured minimum score);
    - strings are [Stdlib.Strings.String.string] (ASCII); JavaScript's
      whitespace class is the ASCII whitespace class;
    - the non-deterministic sources the code reads ([randomUUID()], the wall
      clock of [new Date()] and [Date.now()]) are the explicit [World]: a tick
      counter for clock reads and a counter for drawn UUIDs, interpreted by a
      clock [clock : nat -> Z] (epoch milliseconds of the k-th read) and a
      generator [uuid_of : nat -> string] (the k-th UUID);
    - the backend ([MemoryAPIClient] and the raw [fetch] DELETE) is a record of
      functions; a call that throws is [None]; every request the code issues is
      appended to a trace of [request]s; the summary-view endpoints are a
      second record, [SummaryBackend], and a hook's trace interleaves both
      kinds of [call]s;
    - [process.env] is a function [env : string -> option string]. *)

From Stdlib Require Import Bool ZArith QArith Qminmax List Ascii String Lia.
From Stdlib Require Import DecimalString Lqa Qround.
Import ListNotations.

Set Warnings "-register-all".
Open Scope string_scope.

(** ** JavaScript values *)

Inductive jsval : Type :=
| JUndef
| JNull
| JBool (b : bool)
| JNum (q : Q)
| JStr (s : string)
| JArr (elems : list jsval)
| JObj (props : list (string * jsval)).

(** Property read [v.key]: the first binding of [key] of an object,
    [undefined] otherwise (in particular for arrays and primitives). *)
Definition js_get (v : jsval) (key : string) : jsval :=
  match v with
  | JObj props =>
      match find (fun kv => String.eqb (fst kv) key) props with
      | Some (_, x) => x
      | None => JUndef
      end
  | _ => JUndef
  end.

(** [key in v] for an object or array [v]. *)
Definition js_has (v : jsval) (key : string) : bool :=
  match v with
  | JObj props => existsb (fun kv => String.eqb (fst kv) key) props
  | _ => false
  end.

(** JavaScript truthiness ([!!v]). *)
Definition truthy (v : jsval) : bool :=
  match v with
  | JUndef | JNull => false
  | JBool b => b
  | JNum q => negb (Qeq_bool q 0)
  | JStr s => negb (String.eqb s "")
  | JArr _ | JObj _ => true
  end.

(** [typeof v === "object"]. *)
Definition is_object (v : jsval) : bool :=
  match v with
  | JNull | JArr _ | JObj _ => true
  | _ => false
  end.

(** ** String helpers *)

(** Characters of the regular-expression class [\s] (ASCII part). *)
Definition is_ws (c : ascii) : bool :=
  match nat_of_ascii c with
  | 9%nat | 10%nat | 11%nat | 12%nat | 13%nat | 32%nat => true
  | _ => false
  end.

Fixpoint trim_start (s : string) : string :=
  match s with
  | EmptyString => EmptyString
  | String c s' => if is_ws c then trim_start s' else s
  end.

Fixpoint rev_str (s : string) : string :=
  match s with
  | EmptyString => EmptyString
  | String c s' => rev_str s' ++ String c EmptyString
  end.

(** [String.prototype.trim]. *)
Definition js_trim (s : string) : string :=
  rev_str (trim_start (rev_str (trim_start s))).

Fixpoint starts_with (pre s : string) : bool :=
  match pre, s with
  | EmptyString, _ => true
  | String c p, String d s' => Ascii.eqb c d && starts_with p s'
  | String _ _, EmptyString => false
  end.

(** [s.includes(sub)]. *)
Fixpoint includes (sub s : string) : bool :=
  starts_with sub s ||
  match s with
  | EmptyString => false
  | String _ s' => includes sub s'
  end.

(** [s.slice(0, n)]. *)
Definition slice0 (n : nat) (s : string) : string := substring 0 n s.

(** ** World: clock reads and UUID draws *)

Record World : Type := mkWorld { w_ticks : nat; w_uuids : nat }.

Section Effects.
Variable clock : nat -> Z.
Variable uuid_of : nat -> string.

(** [Date.now()] / the instant of [new Date()]. *)
Definition read_clock (w : World) : Z * World :=
  (clock (w_ticks w), mkWorld (S (w_ticks w)) (w_uuids w)).

(** [randomUUID()]. *)
Definition randomUUID (w : World) : string * World :=
  (uuid_of (w_uuids w), mkWorld (w_ticks w) (S (w_uuids w))).
End Effects.

(** ** Message normalizer *)

(** [MemoryMessage] as built by [convertToMemoryMessages]. *)
Record MemoryMessage : Type := mkMemoryMessage {
  mm_role : string;
  mm_content : string;
  mm_id : string;
  mm_created_at : string
}.

Definition RELEVANT_MEMORIES_MARKER : string := "<relevant-memories>".

(** The test of one content block in [extractTextContent]. *)
Definition text_block (block : jsval) : option string :=
  if truthy block && is_object block && js_has block "type" then
    match js_get block "type" with
    | JStr t =>
        if String.eqb t "text" && js_has block "text" then
          match js_get block "text" with
          | JStr x => Some x
          | _ => None
          end
        else None
    | _ => None
    end
  else None.

Fixpoint block_texts (blocks : list jsval) : list string :=
  match blocks with
  | [] => []
  | b :: bs =>
      match text_block b with
      | Some x => x :: block_texts bs
      | None => block_texts bs
      end
  end.

(** [extractTextContent]. *)
Definition extractTextContent (content : jsval) : string :=
  match content with
  | JStr s => s
  | JArr blocks => String.concat (String (ascii_of_nat 10) EmptyString) (block_texts blocks)
  | _ => ""
  end.

Section Normalizer.
Variable clock : nat -> Z.
Variable uuid_of : nat -> string.
(** [Date.prototype.toISOString] of an epoch-millisecond instant. *)
Variable toISOString : Z -> string.

(** One iteration of the loop of [convertToMemoryMessages]: [None] is a
    [continue], [Some] the pushed message and the world after the UUID draw
    (when the turn has no string id) and the clock read of [new Date()]. *)
Definition convert_turn (msg : jsval) (w : World) : option (MemoryMessage * World) :=
  if negb (truthy msg) || negb (is_object msg) then None else
  match js_get msg "role" with
  | JStr role =>
      if negb (String.eqb role "user" || String.eqb role "assistant") then None else
      let content := extractTextContent (js_get msg "content") in
      if String.eqb (js_trim content) "" then None else
      if includes RELEVANT_MEMORIES_MARKER content then None else
      let '(id, w1) :=
        match js_get msg "id" with
        | JStr s => (s, w)
        | _ => randomUUID uuid_of w
        end in
      let '(now, w2) := read_clock clock w1 in
      Some (mkMemoryMessage role content id (toISOString now), w2)
  | _ => None
  end.

(** [convertToMemoryMessages]. *)
Fixpoint convertToMemoryMessages (messages : list jsval) (w : World)
  : list MemoryMessage * World :=
  match messages with
  | [] => ([], w)
  | msg :: rest =>
      match convert_turn msg w with
      | None => convertToMemoryMessages rest w
      | Some (m, w1) =>
          let '(ms, w2) := convertToMemoryMessages rest w1 in (m :: ms, w2)
      end
  end.
End Normalizer.

(** A canonical message read back as a raw turn (the object the code emits). *)
Definition message_to_turn (m : MemoryMessage) : jsval :=
  JObj [("role", JStr (mm_role m)); ("content", JStr (mm_content m));
        ("id", JStr (mm_id m)); ("created_at", JStr (mm_created_at m))].

(** ** Envelope stripping *)

Definition NL : ascii := ascii_of_nat 10.
Definition CR : ascii := ascii_of_nat 13.
Definition RBRACKET : ascii := "]".
Definition LBRACKET : ascii := "[".

(** [s.slice(n)]. *)
Fixpoint str_drop (n : nat) (s : string) : string :=
  match n, s with
  | O, _ => s
  | S n', String _ s' => str_drop n' s'
  | S _, EmptyString => EmptyString
  end.

(** Drops one trailing carriage return (the optional [\r] of [/\r?\n/]). *)
Definition drop_trailing_cr (line : string) : string :=
  match rev_str line with
  | String c rest => if Ascii.eqb c CR then rev_str rest else line
  | EmptyString => line
  end.

Fixpoint split_lines_aux (s cur : string) : list string :=
  match s with
  | EmptyString => [cur]
  | String c s' =>
      if Ascii.eqb c NL then drop_trailing_cr cur :: split_lines_aux s' EmptyString
      else split_lines_aux s' (cur ++ String c EmptyString)
  end.

(** [text.split(/\r?\n/)]. *)
Definition split_lines (text : string) : list string := split_lines_aux text EmptyString.

Fixpoint has_rbracket (s : string) : bool :=
  match s with
  | EmptyString => false
  | String c s' => Ascii.eqb c RBRACKET || has_rbracket s'
  end.

(** [/^\[message_id:\s*[^\]]+\]$/.test(line.trim())]: the trimmed line is
    ["[message_id:"], a non-empty run without [']'] (the [\s*] is absorbed by
    [[^\]]+]), and a final [']']. *)
Definition is_message_id_line (line : string) : bool :=
  let t := js_trim line in
  match rev_str t with
  | String c rbody =>
      let body := rev_str rbody in
      let m := str_drop 12 body in
      Ascii.eqb c RBRACKET && starts_with "[message_id:" body
      && negb (String.eqb m "") && negb (has_rbracket m)
  | EmptyString => false
  end.

(** The greedy [[^\]]+] run and what follows it. *)
Fixpoint span_header (s : string) : string * string :=
  match s with
  | EmptyString => (EmptyString, EmptyString)
  | String c s' =>
      if Ascii.eqb c RBRACKET then (EmptyString, s)
      else let '(h, r) := span_header s' in (String c h, r)
  end.

Fixpoint ws_prefix_len (s : string) : nat :=
  match s with
  | EmptyString => O
  | String c s' => if is_ws c then S (ws_prefix_len s') else O
  end.

(** [result.match(/^\[([^\]]+)\]\s*/)]: the length of [match[0]] and the
    capture [match[1]]. *)
Definition envelope_match (result : string) : option (nat * string) :=
  match result with
  | String c rest =>
      if Ascii.eqb c LBRACKET then
        let '(h, after) := span_header rest in
        match after with
        | String d after' =>
            if Ascii.eqb d RBRACKET && negb (String.eqb h "") then
              Some (S (String.length h + S (ws_prefix_len after')), h)
            else None
        | EmptyString => None
        end
      else None
  | EmptyString => None
  end.

Fixpoint split_ws_aux (s cur : string) (prev_ws : bool) : list string :=
  match s with
  | EmptyString => [cur]
  | String c s' =>
      if is_ws c then
        if prev_ws then split_ws_aux s' cur true
        else cur :: split_ws_aux s' EmptyString true
      else split_ws_aux s' (cur ++ String c EmptyString) false
  end.

(** [header.split(/\s+/)]. *)
Definition split_ws (s : string) : list string := split_ws_aux s EmptyString false.

(** The lines kept by the [message_id] filter. *)
Definition kept_lines (text : string) : list string :=
  filter (fun line => negb (is_message_id_line line)) (split_lines text).

(** [filtered.join("\n")]. *)
Definition without_message_id_lines (text : string) : string :=
  String.concat (String NL EmptyString) (kept_lines text).

(** [stripEnvelopeForSearch]. *)
Definition stripEnvelopeForSearch (text : string) : string :=
  let result := without_message_id_lines text in
  match envelope_match result with
  | Some (len0, header) =>
      if Nat.leb 2 (List.length (split_ws header))
      then js_trim (str_drop len0 result)
      else js_trim result
  | None => js_trim result
  end.

(** ** Search results and scores *)

(** The [dist] field of a backend search result. *)
Inductive dist_field : Type :=
| DistNum (d : Q)
| DistNull
| DistAbsent.

(** [m.dist ?? 0]. *)
Definition dist_or_zero (d : dist_field) : Q :=
  match d with
  | DistNum q => q
  | DistNull | DistAbsent => 0
  end.

(** [Math.max(0, 1 - (m.dist ?? 0))]. *)
Definition score_of (d : dist_field) : Q := Qmax 0 (1 - dist_or_zero d).

(** Strict [<] on numbers. *)
Definition qltb (x y : Q) : bool := negb (Qle_bool y x).

(** [m.dist < bound]: [null] converts to 0, [undefined] to NaN. *)
Definition dist_lt (d : dist_field) (bound : Q) : bool :=
  match d with
  | DistNum q => qltb q bound
  | DistNull => qltb 0 bound
  | DistAbsent => false
  end.

(** An entry of [searchLongTermMemory(...).memories]. *)
Record MemoryRecord : Type := mkMemoryRecord {
  mr_id : string;
  mr_text : string;
  mr_dist : dist_field
}.

(** ** Configuration (src/src/config.ts) *)

Inductive MemoryStrategy : Type := Discrete | Summary | Preferences | Custom.

(** The fields of [MemoryConfig] the modelled paths read. *)
Record MemoryConfig : Type := mkMemoryConfig {
  cfg_serverUrl : string;
  cfg_namespace : option string;
  cfg_userId : option string;
  cfg_workingMemorySessionId : option string;
  cfg_minScore : option Q;
  cfg_recallLimit : Z;
  cfg_extractionStrategy : option MemoryStrategy;
  cfg_customPrompt : option string
}.

Definition DEFAULT_MIN_SCORE : Q := 3 # 10.

(** The [minScore] field of [parseMemoryConfig]: a number is clamped to
    [[0,1]], anything else gives the default. *)
Definition parseMinScore (raw : jsval) : option Q :=
  match raw with
  | JNum q => Some (Qmax 0 (Qmin 1 q))
  | _ => Some DEFAULT_MIN_SCORE
  end.

(** [cfg.x ? { eq: cfg.x } : undefined]. *)
Definition eq_filter (x : option string) : option string :=
  match x with
  | Some s => if String.eqb s "" then None else Some s
  | None => None
  end.

(** ** Backend *)

Record SearchRequest : Type := mkSearchRequest {
  sq_text : string;
  sq_limit : Z;
  sq_namespace : option string;
  sq_userId : option string;
  sq_distanceThreshold : option Q
}.

(** An entry of [createLongTermMemory]. *)
Record NewEntry : Type := mkNewEntry {
  ne_id : string;
  ne_text : string;
  ne_topics : list string;
  ne_namespace : option string
}.

(** Requests issued to the backend, in order. *)
Inductive request : Type :=
| ReqSearch (q : SearchRequest)
| ReqCreate (entries : list NewEntry)
| ReqDelete (memoryId : string)
| ReqPutWorkingMemory (sessionId : string) (messages : list MemoryMessage).

(** The backend's answers: [None] for a call that throws; for a DELETE the
    value of [deleteRes.ok]; for a create or a working-memory write whether
    it succeeded. *)
Record Backend : Type := mkBackend {
  be_search : SearchRequest -> option (list MemoryRecord);
  be_create : list NewEntry -> bool;
  be_delete : string -> bool;
  be_putWorkingMemory : string -> list MemoryMessage -> bool
}.

(** [searchLongTermMemory] with the namespace and user filters of [cfg]. *)
Definition search_request (cfg : MemoryConfig) (text : string) (limit : Z)
    (threshold : option Q) : SearchRequest :=
  mkSearchRequest text limit (eq_filter (cfg_namespace cfg))
    (eq_filter (cfg_userId cfg)) threshold.

Definition string_of_nat (n : nat) : string := NilEmpty.string_of_uint (Nat.to_uint n).
Definition string_of_Z (z : Z) : string := NilEmpty.string_of_int (Z.to_int z).

(** ** memory_recall *)

(** [MemorySearchResult] (the fields the code fills in). *)
Record ScoredMemory : Type := mkScoredMemory {
  sm_id : string;
  sm_text : string;
  sm_score : Q
}.

Definition to_scored (m : MemoryRecord) : ScoredMemory :=
  mkScoredMemory (mr_id m) (mr_text m) (score_of (mr_dist m)).

Inductive RecallOutcome : Type :=
| RecallNone
| RecallFound (memories : list ScoredMemory)
| RecallFailed.

(** [r.score >= cfg.minScore!]. *)
Definition passes_min_score (minScore : option Q) (r : ScoredMemory) : bool :=
  match minScore with
  | Some ms => Qle_bool ms (sm_score r)
  | None => false
  end.

(** [memory_recall.execute]. *)
Definition memory_recall (cfg : MemoryConfig) (be : Backend) (query : string)
    (limit : option Z) : RecallOutcome * list request :=
  let req := search_request cfg query (match limit with Some l => l | None => 5%Z end) None in
  match be_search be req with
  | None => (RecallFailed, [ReqSearch req])
  | Some [] => (RecallNone, [ReqSearch req])
  | Some ms =>
      let filtered := filter (passes_min_score (cfg_minScore cfg)) (map to_scored ms) in
      match filtered with
      | [] => (RecallNone, [ReqSearch req])
      | _ => (RecallFound filtered, [ReqSearch req])
      end
  end.

(** ** before_agent_start: the query-specific search (step 2 of the hook) *)

(** [r.score >= (cfg.minScore ?? 0.3)]. *)
Definition hook_passes (minScore : option Q) (r : ScoredMemory) : bool :=
  Qle_bool (match minScore with Some ms => ms | None => DEFAULT_MIN_SCORE end) (sm_score r).

(** The memories the hook injects as [<relevant-memories>] ([None] when the
    hook returns early or injects no query-specific block), and the requests. *)
Definition before_agent_start_search (cfg : MemoryConfig) (be : Backend)
    (prompt : option string) : option (list ScoredMemory) * list request :=
  match prompt with
  | None => (None, [])
  | Some p =>
      if Nat.ltb (String.length p) 5 then (None, []) else
      let searchQuery := stripEnvelopeForSearch p in
      if String.eqb searchQuery "" || Nat.ltb (String.length searchQuery) 5 then (None, []) else
      let threshold := match cfg_minScore cfg with Some ms => Some (1 - ms) | None => None end in
      let req := search_request cfg searchQuery (cfg_recallLimit cfg) threshold in
      match be_search be req with
      | None => (None, [ReqSearch req])
      | Some [] => (None, [ReqSearch req])
      | Some ms =>
          match filter (hook_passes (cfg_minScore cfg)) (map to_scored ms) with
          | [] => (None, [ReqSearch req])
          | filtered => (Some filtered, [ReqSearch req])
          end
      end
  end.

(** ** memory_store *)

Inductive MemoryCategory : Type := Preference | Fact | Decision | Entity | Other.

Definition category_name (c : MemoryCategory) : string :=
  match c with
  | Preference => "preference"
  | Fact => "fact"
  | Decision => "decision"
  | Entity => "entity"
  | Other => "other"
  end.

(** The [details] of the [memory_store] result. *)
Inductive StoreOutcome : Type :=
| StoreRejected
| StoreDuplicate (existingId existingText : string)
| StoreCreated (id : string)
| StoreFailed.

Definition DUPLICATE_DISTANCE : Q := 5 # 100.

Section Store.
Variable uuid_of : nat -> string.

(** [memory_store.execute]. *)
Definition memory_store (cfg : MemoryConfig) (be : Backend) (text : string)
    (category : option MemoryCategory) (w : World)
  : StoreOutcome * list request * World :=
  let cat := match category with Some c => c | None => Other end in
  if String.eqb text "" || String.eqb (js_trim text) "" then (StoreRejected, [], w) else
  let req := search_request cfg text 1 None in
  let create :=
    let '(memoryId, w1) := randomUUID uuid_of w in
    let entries := [mkNewEntry memoryId text [category_name cat] (cfg_namespace cfg)] in
    if be_create be entries
    then (StoreCreated memoryId, [ReqSearch req; ReqCreate entries], w1)
    else (StoreFailed, [ReqSearch req; ReqCreate entries], w1) in
  match be_search be req with
  | None => (StoreFailed, [ReqSearch req], w)
  | Some (m :: _) =>
      if dist_lt (mr_dist m) DUPLICATE_DISTANCE
      then (StoreDuplicate (mr_id m) (mr_text m), [ReqSearch req], w)
      else create
  | Some [] => create
  end.
End Store.

(** ** memory_forget *)

(** The [details] of the [memory_forget] result; [ForgetCandidates] also
    carries the text of the [content] block. *)
Inductive ForgetOutcome : Type :=
| ForgetDeleted (id : string)
| ForgetNoneFound
| ForgetCandidates (content : string) (candidates : list ScoredMemory)
| ForgetMissingParam
| ForgetFailed.

Definition AUTO_DELETE_SCORE : Q := 9 # 10.

(** [`- [${r.id.slice(0, 8)}] ${r.text.slice(0, 60)}...`]. *)
Definition candidate_line (r : ScoredMemory) : string :=
  "- [" ++ slice0 8 (sm_id r) ++ "] " ++ slice0 60 (sm_text r) ++ "...".

Definition candidates_text (scored : list ScoredMemory) : string :=
  "Found " ++ string_of_nat (List.length scored) ++ " candidates. Specify memoryId:"
  ++ String NL EmptyString
  ++ String.concat (String NL EmptyString) (map candidate_line scored).

(** The raw [fetch] DELETE of one memory id. *)
Definition delete_memory (be : Backend) (id : string) : ForgetOutcome * list request :=
  if be_delete be id then (ForgetDeleted id, [ReqDelete id]) else (ForgetFailed, [ReqDelete id]).

(** An optional string parameter tested with [if (x)]: [Some] of the
    string when it is truthy. *)
Definition truthy_param (x : option string) : option string :=
  match x with
  | Some s => if String.eqb s "" then None else Some s
  | None => None
  end.

(** The [if (query)] branch of [memory_forget.execute]. *)
Definition forget_by_query (cfg : MemoryConfig) (be : Backend) (q : string)
  : ForgetOutcome * list request :=
  let req := search_request cfg q 5 None in
  match be_search be req with
  | None => (ForgetFailed, [ReqSearch req])
  | Some [] => (ForgetNoneFound, [ReqSearch req])
  | Some ms =>
      let scored := map to_scored ms in
      match scored with
      | [r] =>
          if qltb AUTO_DELETE_SCORE (sm_score r) then
            let '(o, reqs) := delete_memory be (sm_id r) in (o, ReqSearch req :: reqs)
          else (ForgetCandidates (candidates_text scored) scored, [ReqSearch req])
      | _ => (ForgetCandidates (candidates_text scored) scored, [ReqSearch req])
      end
  end.

(** [memory_forget.execute]. *)
Definition memory_forget (cfg : MemoryConfig) (be : Backend)
    (query memoryId : option string) : ForgetOutcome * list request :=
  match truthy_param memoryId with
  | Some id => delete_memory be id
  | None =>
      match truthy_param query with
      | Some q => forget_by_query cfg be q
      | None => (ForgetMissingParam, [])
      end
  end.

(** ** agent_end: auto-capture *)

Section Capture.
Variable clock : nat -> Z.
Variable uuid_of : nat -> string.
Variable toISOString : Z -> string.

(** [ctx?.sessionKey ?? `session-${Date.now()}`]. *)
Definition capture_session_id (sessionKey : option string) (w : World) : string * World :=
  match sessionKey with
  | Some k => (k, w)
  | None => let '(t, w1) := read_clock clock w in ("session-" ++ string_of_Z t, w1)
  end.

(** The [agent_end] handler up to the working-memory write: [success] is
    [e.success] ([undefined] read as [false]), [messages] is [e.messages],
    [sessionKey] is [ctx?.sessionKey] ([null]/[undefined] as [None]). *)
Definition agent_end (cfg : MemoryConfig) (be : Backend) (success : bool)
    (messages : option (list jsval)) (sessionKey : option string) (w : World)
  : list request * World :=
  match messages with
  | Some ((_ :: _) as msgs) =>
      if negb success then ([], w) else
      let '(sessionId, w1) := capture_session_id sessionKey w in
      let '(memoryMessages, w2) := convertToMemoryMessages clock uuid_of toISOString msgs w1 in
      match memoryMessages with
      | [] => ([], w2)
      | _ => ([ReqPutWorkingMemory sessionId memoryMessages], w2)
      end
  | _ => ([], w)
  end.
End Capture.

(** ** Configuration parsing (src/src/config.ts, [parseMemoryConfig]) *)

Inductive SummaryGroupByField : Type := GroupUserId | GroupNamespace.

(** [MemoryConfig] as returned by [parseMemoryConfig] (every field it sets;
    the optional ones the parser may leave [undefined] are options). *)
Record ParsedConfig : Type := mkParsedConfig {
  pc_serverUrl : string;
  pc_apiKey : option string;
  pc_bearerToken : option string;
  pc_namespace : string;
  pc_userId : option string;
  pc_workingMemorySessionId : option string;
  pc_timeout : Q;
  pc_autoCapture : bool;
  pc_autoRecall : bool;
  pc_minScore : Q;
  pc_recallLimit : Z;
  pc_extractionStrategy : option MemoryStrategy;
  pc_customPrompt : option string;
  pc_summaryViewName : string;
  pc_summaryTimeWindowDays : Z;
  pc_summaryGroupBy : list SummaryGroupByField;
  pc_recallDescription : string;
  pc_storeDescription : string;
  pc_forgetDescription : string
}.

(** The errors [parseMemoryConfig] throws. *)
Inductive ConfigError : Type :=
| ConfigRequired
| UnknownKeys (keys : list string)
| InvalidStrategy (value : string)
| CustomPromptRequired
| EnvVarNotSet (name : string).

Inductive Result (A : Type) : Type :=
| Ok (a : A)
| Err (e : ConfigError).
Arguments Ok {A} a.
Arguments Err {A} e.

Definition result_bind {A B} (r : Result A) (f : A -> Result B) : Result B :=
  match r with
  | Ok a => f a
  | Err e => Err e
  end.

Notation "x <- r ;; k" := (result_bind r (fun x => k)) (at level 61, r at next level, right associativity).

Definition DEFAULT_SERVER_URL : string := "http://localhost:8000".
Definition DEFAULT_TIMEOUT : Q := 30000.
Definition DEFAULT_RECALL_LIMIT : Z := 3.
Definition DEFAULT_NAMESPACE : string := "default".
Definition DEFAULT_SUMMARY_VIEW_NAME : string := "agent_user_summary".
Definition DEFAULT_SUMMARY_TIME_WINDOW_DAYS : Z := 30.
Definition DEFAULT_SUMMARY_GROUP_BY : list SummaryGroupByField := [GroupUserId].
Definition DEFAULT_RECALL_DESCRIPTION : string :=
  "Search through long-term memories. Use when you need context about user preferences, past decisions, or previously discussed topics.".
Definition DEFAULT_STORE_DESCRIPTION : string :=
  "Save important information in long-term memory. Use for preferences, facts, decisions.".
Definition DEFAULT_FORGET_DESCRIPTION : string := "Delete specific memories. GDPR-compliant.".

Definition ALLOWED_CONFIG_KEYS : list string :=
  ["serverUrl"; "apiKey"; "bearerToken"; "namespace"; "userId";
   "workingMemorySessionId"; "timeout"; "autoCapture"; "autoRecall"; "minScore";
   "recallLimit"; "extractionStrategy"; "customPrompt"; "summaryViewName";
   "summaryTimeWindowDays"; "summaryGroupBy"; "recallDescription";
   "storeDescription"; "forgetDescription"].

Definition allowed_key (k : string) : bool := existsb (String.eqb k) ALLOWED_CONFIG_KEYS.

(** [Object.keys(value).filter((key) => !allowed.includes(key))]. *)
Definition unknown_keys (props : list (string * jsval)) : list string :=
  filter (fun k => negb (allowed_key k)) (map fst props).

(** [assertAllowedKeys]. *)
Definition assertAllowedKeys (props : list (string * jsval)) : Result unit :=
  match unknown_keys props with
  | [] => Ok tt
  | ks => Err (UnknownKeys ks)
  end.

(** The scanner state of [resolveEnvVars]: outside a reference, just after a
    [$], or inside [${name] before its closing brace. *)
Inductive EnvScan : Type := ScanText | ScanDollar | ScanName (name : string).

Definition DOLLAR : ascii := "$".
Definition LBRACE : ascii := "{".
Definition RBRACE : ascii := "}".

Definition prepend (p : string) (r : Result string) : Result string :=
  match r with
  | Ok t => Ok (p ++ t)
  | Err e => Err e
  end.

Section Env.
(** [process.env]. *)
Variable env : string -> option string.

(** [value.replace(/\$\{([^}]+)\}/g, ...)]: a left-to-right scan; the name of
    a reference runs to the first [}] (it may contain [$] and [{]); [${}] and
    an unclosed [${...] stay literal; the callback throws for a variable that
    is unset or empty, and the replacement text is not rescanned. *)
Fixpoint resolve_scan (s : string) (st : EnvScan) : Result string :=
  match s, st with
  | EmptyString, ScanText => Ok ""
  | EmptyString, ScanDollar => Ok "$"
  | EmptyString, ScanName n => Ok ("${" ++ n)
  | String c s', ScanText =>
      if Ascii.eqb c DOLLAR then resolve_scan s' ScanDollar
      else prepend (String c EmptyString) (resolve_scan s' ScanText)
  | String c s', ScanDollar =>
      if Ascii.eqb c LBRACE then resolve_scan s' (ScanName "")
      else if Ascii.eqb c DOLLAR then prepend "$" (resolve_scan s' ScanDollar)
      else prepend (String DOLLAR (String c EmptyString)) (resolve_scan s' ScanText)
  | String c s', ScanName n =>
      if Ascii.eqb c RBRACE then
        if String.eqb n "" then prepend "${}" (resolve_scan s' ScanText)
        else match env n with
             | Some v => if String.eqb v "" then Err (EnvVarNotSet n)
                         else prepend v (resolve_scan s' ScanText)
             | None => Err (EnvVarNotSet n)
             end
      else resolve_scan s' (ScanName (n ++ String c EmptyString))
  end.

(** [resolveEnvVars]. *)
Definition resolveEnvVars (value : string) : Result string := resolve_scan value ScanText.

Definition parseStrategy (s : string) : option MemoryStrategy :=
  if String.eqb s "discrete" then Some Discrete
  else if String.eqb s "summary" then Some Summary
  else if String.eqb s "preferences" then Some Preferences
  else if String.eqb s "custom" then Some Custom
  else None.

Definition parseGroupByField (v : jsval) : option SummaryGroupByField :=
  match v with
  | JStr s => if String.eqb s "user_id" then Some GroupUserId
              else if String.eqb s "namespace" then Some GroupNamespace else None
  | _ => None
  end.

Fixpoint parse_group_by_fields (vs : list jsval) : list SummaryGroupByField :=
  match vs with
  | [] => []
  | v :: vs' =>
      match parseGroupByField v with
      | Some f => f :: parse_group_by_fields vs'
      | None => parse_group_by_fields vs'
      end
  end.

(** The [summaryGroupBy] field: the valid entries of an array, if any. *)
Definition parseSummaryGroupBy (v : jsval) : list SummaryGroupByField :=
  match v with
  | JArr vs =>
      match parse_group_by_fields vs with
      | [] => DEFAULT_SUMMARY_GROUP_BY
      | parsed => parsed
      end
  | _ => DEFAULT_SUMMARY_GROUP_BY
  end.

Definition string_or (v : jsval) (d : string) : string :=
  match v with JStr s => s | _ => d end.

Definition string_opt (v : jsval) : option string :=
  match v with JStr s => Some s | _ => None end.

(** [Math.max(1, Math.floor(x))] for a number, else the default. *)
Definition positive_int_or (v : jsval) (d : Z) : Z :=
  match v with JNum q => Z.max 1 (Qfloor q) | _ => d end.

(** [typeof x === "string" ? resolveEnvVars(x) : undefined]. *)
Definition resolve_opt (v : jsval) : Result (option string) :=
  match v with
  | JStr s => r <- resolveEnvVars s ;; Ok (Some r)
  | _ => Ok None
  end.

(** [if (extractionStrategy === "custom" && !customPrompt) throw ...]. *)
Definition check_custom_prompt (st : option MemoryStrategy) (customPrompt : option string)
  : Result unit :=
  match st with
  | Some Custom =>
      match truthy_param customPrompt with
      | Some _ => Ok tt
      | None => Err CustomPromptRequired
      end
  | _ => Ok tt
  end.

(** [parseMemoryConfig]. JSON numbers are finite, so [Number.isFinite] holds
    for every [JNum]. *)
Definition parseMemoryConfig (value : jsval) : Result ParsedConfig :=
  match value with
  | JObj props =>
      _ <- assertAllowedKeys props ;;
      let serverUrl := string_or (js_get value "serverUrl") DEFAULT_SERVER_URL in
      extractionStrategy <-
        match js_get value "extractionStrategy" with
        | JStr s => match parseStrategy s with
                    | Some st => Ok (Some st)
                    | None => Err (InvalidStrategy s)
                    end
        | _ => Ok None
        end ;;
      let customPrompt := string_opt (js_get value "customPrompt") in
      _ <- check_custom_prompt extractionStrategy customPrompt ;;
      serverUrl' <- resolveEnvVars serverUrl ;;
      apiKey <- resolve_opt (js_get value "apiKey") ;;
      bearerToken <- resolve_opt (js_get value "bearerToken") ;;
      Ok (mkParsedConfig
            serverUrl' apiKey bearerToken
            (string_or (js_get value "namespace") DEFAULT_NAMESPACE)
            (string_opt (js_get value "userId"))
            (string_opt (js_get value "workingMemorySessionId"))
            (match js_get value "timeout" with JNum q => q | _ => DEFAULT_TIMEOUT end)
            (match js_get value "autoCapture" with JBool false => false | _ => true end)
            (match js_get value "autoRecall" with JBool false => false | _ => true end)
            (match parseMinScore (js_get value "minScore") with
             | Some m => m | None => DEFAULT_MIN_SCORE end)
            (positive_int_or (js_get value "recallLimit") DEFAULT_RECALL_LIMIT)
            extractionStrategy customPrompt
            (string_or (js_get value "summaryViewName") DEFAULT_SUMMARY_VIEW_NAME)
            (positive_int_or (js_get value "summaryTimeWindowDays")
               DEFAULT_SUMMARY_TIME_WINDOW_DAYS)
            (parseSummaryGroupBy (js_get value "summaryGroupBy"))
            (string_or (js_get value "recallDescription") DEFAULT_RECALL_DESCRIPTION)
            (string_or (js_get value "storeDescription") DEFAULT_STORE_DESCRIPTION)
            (string_or (js_get value "forgetDescription") DEFAULT_FORGET_DESCRIPTION))
  | _ => Err ConfigRequired
  end.
End Env.

(** The [MemoryConfig] fields the tools and hooks read, from a parsed config. *)
Definition to_memory_config (pc : ParsedConfig) : MemoryConfig :=
  mkMemoryConfig (pc_serverUrl pc) (Some (pc_namespace pc)) (pc_userId pc)
    (pc_workingMemorySessionId pc) (Some (pc_minScore pc)) (pc_recallLimit pc)
    (pc_extractionStrategy pc) (pc_customPrompt pc).

(** ** Summary views and the full lifecycle hooks (src/unnamed/part_001) *)

(** A summary view as listed by [listSummaryViews]. *)
Record SummaryView : Type := mkSummaryView { sv_id : string; sv_name : string }.

(** The argument of [createSummaryView]; [vs_filters] is the namespace of
    [filters: { namespace }], [None] when [filters] is [undefined]. *)
Record ViewSpec : Type := mkViewSpec {
  vs_name : string;
  vs_source : string;
  vs_group_by : list SummaryGroupByField;
  vs_filters : option string;
  vs_time_window_days : Z;
  vs_continuous : bool;
  vs_prompt : string
}.

(** A partition of [listSummaryViewPartitions]: [p.group.user_id] and
    [p.group.namespace] as JavaScript values, [p.summary] ([null] as [None]),
    [p.memory_count] and [p.computed_at] ([null]/[undefined] as [None]). *)
Record Partition : Type := mkPartition {
  pt_user_id : jsval;
  pt_namespace : jsval;
  pt_summary : option string;
  pt_memory_count : Z;
  pt_computed_at : option string
}.

(** The answer of a client call that may throw [MemoryNotFoundError]
    ([ViewNotFound]) or another error ([ViewError]). *)
Inductive ViewAnswer (A : Type) : Type :=
| ViewOk (a : A)
| ViewNotFound
| ViewError.
Arguments ViewOk {A} a.
Arguments ViewNotFound {A}.
Arguments ViewError {A}.

(** The summary-view endpoints of the client and [healthCheck]
    ([None]/[false]: the call throws). *)
Record SummaryBackend : Type := mkSummaryBackend {
  sb_listViews : option (list SummaryView);
  sb_createView : ViewSpec -> option string;
  sb_listPartitions : string -> option string -> option string -> ViewAnswer (list Partition);
  sb_runView : string -> ViewAnswer unit;
  sb_healthCheck : bool
}.

Inductive view_request : Type :=
| ReqHealthCheck
| ReqListViews
| ReqCreateView (spec : ViewSpec)
| ReqListPartitions (viewId : string) (namespace userId : option string)
| ReqRunView (viewId : string).

(** One client call, memory or summary view, in the order issued. *)
Inductive call : Type :=
| CallMem (r : request)
| CallView (r : view_request).

Definition SUMMARY_VIEW_PROMPT : string :=
  "Summarize key facts, preferences, decisions, and important context about the user. "
  ++ "Focus on information that would be useful for future conversations. "
  ++ "Be concise but comprehensive.".

(** The view [ensureSummaryView] creates. [parseMemoryConfig] always sets
    [cfg.summaryGroupBy], so its [?? ["user_id"]] never applies. *)
Definition summary_view_spec (pc : ParsedConfig) : ViewSpec :=
  mkViewSpec (pc_summaryViewName pc) "long_term" (pc_summaryGroupBy pc)
    (truthy_param (Some (pc_namespace pc))) (pc_summaryTimeWindowDays pc) false
    SUMMARY_VIEW_PROMPT.

(** [ensureSummaryView]: the view id it returns ([None] for [null]) and the
    calls it issues. *)
Definition ensureSummaryView (pc : ParsedConfig) (sb : SummaryBackend)
  : option string * list view_request :=
  match sb_listViews sb with
  | None => (None, [ReqListViews])
  | Some views =>
      match find (fun v => String.eqb (sv_name v) (pc_summaryViewName pc)) views with
      | Some existing => (Some (sv_id existing), [ReqListViews])
      | None =>
          let spec := summary_view_spec pc in
          match sb_createView sb spec with
          | Some id => (Some id, [ReqListViews; ReqCreateView spec])
          | None => (None, [ReqListViews; ReqCreateView spec])
          end
      end
  end.

(** [x !== y] is [negb (js_strict_eq_str x y)] for a group value [x] and a
    string-or-undefined [y]. *)
Definition js_strict_eq_str (x : jsval) (y : option string) : bool :=
  match x, y with
  | JStr a, Some b => String.eqb a b
  | JUndef, None => true
  | _, _ => false
  end.

(** The predicate of [partitions.find]. *)
Definition partition_matches (pc : ParsedConfig) (p : Partition) : bool :=
  forallb (fun field =>
             match field with
             | GroupUserId => js_strict_eq_str (pt_user_id p) (pc_userId pc)
             | GroupNamespace => js_strict_eq_str (pt_namespace p) (Some (pc_namespace pc))
             end) (pc_summaryGroupBy pc).

(** [partitions.find(...) ?? partitions[0]]. *)
Definition select_partition (pc : ParsedConfig) (ps : list Partition) : option Partition :=
  match find (partition_matches pc) ps with
  | Some p => Some p
  | None => hd_error ps
  end.

Definition QUOTE : ascii := ascii_of_nat 34.
Definition NLS : string := String NL EmptyString.

(** A double-quoted attribute value. *)
Definition qstr (s : string) : string := String QUOTE (s ++ String QUOTE EmptyString).

(** The [<user-summary ...>] block of a partition with summary [s]. *)
Definition user_summary_block (p : Partition) (s : string) : string :=
  "<user-summary computed="
  ++ qstr (match pt_computed_at p with Some c => c | None => "unknown" end)
  ++ " memories=" ++ qstr (string_of_Z (pt_memory_count p)) ++ ">"
  ++ NLS ++ s ++ NLS ++ "</user-summary>".

(** [if (partition && partition.summary && partition.memory_count > 0)]. *)
Definition summary_part (p : option Partition) : option string :=
  match p with
  | Some pt =>
      match pt_summary pt with
      | Some s =>
          if String.eqb s "" then None
          else if Z.ltb 0 (pt_memory_count pt) then Some (user_summary_block pt s)
          else None
      | None => None
      end
  | None => None
  end.

(** The [<relevant-memories query-specific="true">] block of the hook. *)
Definition relevant_block (ms : list ScoredMemory) : string :=
  "<relevant-memories query-specific=" ++ qstr "true" ++ ">" ++ NLS
  ++ String.concat NLS (map (fun r => "- " ++ sm_text r) ms)
  ++ NLS ++ "</relevant-memories>".

(** Step 1 of [before_agent_start]: the summary block, the calls and the
    new [summaryViewId]. *)
Definition summary_step (pc : ParsedConfig) (sb : SummaryBackend) (sid : option string)
  : option string * list view_request * option string :=
  match truthy_param sid with
  | None => (None, [], sid)
  | Some id =>
      let req := ReqListPartitions id (Some (pc_namespace pc)) (pc_userId pc) in
      match sb_listPartitions sb id (Some (pc_namespace pc)) (pc_userId pc) with
      | ViewOk ps => (summary_part (select_partition pc ps), [req], sid)
      | ViewNotFound =>
          let '(sid', reqs) := ensureSummaryView pc sb in (None, req :: reqs, sid')
      | ViewError => (None, [req], sid)
      end
  end.

Definition option_to_list {A} (o : option A) : list A :=
  match o with Some a => [a] | None => [] end.

(** The [before_agent_start] handler: the [prependContext] it returns
    ([None] when it returns nothing), the calls, and [summaryViewId] after
    it. [prompt] is [e.prompt]. *)
Definition before_agent_start (pc : ParsedConfig) (sb : SummaryBackend) (be : Backend)
    (sid : option string) (prompt : option string)
  : option string * list call * option string :=
  match prompt with
  | None => (None, [], sid)
  | Some p =>
      if Nat.ltb (String.length p) 5 then (None, [], sid) else
      let '(summary, vreqs, sid1) := summary_step pc sb sid in
      let '(found, reqs) := before_agent_start_search (to_memory_config pc) be prompt in
      let parts := app (option_to_list summary) (option_to_list (option_map relevant_block found)) in
      let calls := app (map CallView vreqs) (map CallMem reqs) in
      match parts with
      | [] => (None, calls, sid1)
      | _ => (Some (String.concat (NLS ++ NLS) parts), calls, sid1)
      end
  end.

(** The [long_term_memory_strategy] of the working-memory write: the
    strategy and the [prompt] of its [config] ([None] for [{}]). *)
Definition long_term_memory_strategy (cfg : MemoryConfig) : option (MemoryStrategy * option string) :=
  match cfg_extractionStrategy cfg with
  | None => None
  | Some st =>
      Some (st, match st, truthy_param (cfg_customPrompt cfg) with
                | Custom, Some p => Some p
                | _, _ => None
                end)
  end.

(** The [summaryViewId] refresh after a working-memory write. *)
Definition refresh_summary (pc : ParsedConfig) (sb : SummaryBackend) (sid : option string)
  : list view_request * option string :=
  match truthy_param sid with
  | None => ([], sid)
  | Some id =>
      match sb_runView sb id with
      | ViewNotFound => let '(sid', reqs) := ensureSummaryView pc sb in (ReqRunView id :: reqs, sid')
      | _ => ([ReqRunView id], sid)
      end
  end.

Section Hooks.
Variable clock : nat -> Z.
Variable uuid_of : nat -> string.
Variable toISOString : Z -> string.

(** The [agent_end] handler with its summary refresh, which runs only when
    [putWorkingMemory] did not throw. *)
Definition agent_end_full (pc : ParsedConfig) (be : Backend) (sb : SummaryBackend)
    (sid : option string) (success : bool) (messages : option (list jsval))
    (sessionKey : option string) (w : World) : list call * World * option string :=
  let '(reqs, w1) := agent_end clock uuid_of toISOString (to_memory_config pc) be
                       success messages sessionKey w in
  match reqs with
  | [ReqPutWorkingMemory s msgs] =>
      if be_putWorkingMemory be s msgs then
        let '(vreqs, sid') := refresh_summary pc sb sid in
        (app (map CallMem reqs) (map CallView vreqs), w1, sid')
      else (map CallMem reqs, w1, sid)
  | _ => (map CallMem reqs, w1, sid)
  end.

(** The hooks as [register] installs them: [before_agent_start] only when
    [cfg.autoRecall], [agent_end] only when [cfg.autoCapture]. *)
Definition on_before_agent_start (pc : ParsedConfig) (sb : SummaryBackend) (be : Backend)
    (sid : option string) (prompt : option string)
  : option string * list call * option string :=
  if pc_autoRecall pc then before_agent_start pc sb be sid prompt else (None, [], sid).

Definition on_agent_end (pc : ParsedConfig) (be : Backend) (sb : SummaryBackend)
    (sid : option string) (success : bool) (messages : option (list jsval))
    (sessionKey : option string) (w : World) : list call * World * option string :=
  if pc_autoCapture pc then agent_end_full pc be sb sid success messages sessionKey w
  else ([], w, sid).
End Hooks.

(** The service's [start]: [summaryViewId] after it. *)
Definition service_start (pc : ParsedConfig) (sb : SummaryBackend) (sid : option string)
  : option string * list view_request :=
  if sb_healthCheck sb then
    let '(sid', reqs) := ensureSummaryView pc sb in (sid', ReqHealthCheck :: reqs)
  else (sid, [ReqHealthCheck]).

(** * Properties *)

(** ** Concrete inputs *)

Definition w0 : World := mkWorld 0 0.

(** A wall clock that reads 1760000000000 ms at every tick. *)
Definition fixed_clock : nat -> Z := fun _ => 1760000000000%Z.

(** A clock that advances one millisecond per read. *)
Definition ticking_clock : nat -> Z := fun k => (1760000000000 + Z.of_nat k)%Z.

Definition uuid_seq : nat -> string := fun k => "uuid-" ++ string_of_nat k.

(** A stand-in for [toISOString] that is injective on instants. *)
Definition iso_of : Z -> string := string_of_Z.

Definition turn_with_timestamp : jsval :=
  JObj [("role", JStr "user"); ("content", JStr "Hello");
        ("timestamp", JNum (1706900000000 # 1)); ("id", JStr "msg-1")].

Definition cfg_with_session_override : MemoryConfig :=
  mkMemoryConfig "http://localhost:8000" (Some "default") None (Some "fixed-session")
    (Some DEFAULT_MIN_SCORE) 3 None None.

Definition empty_backend : Backend :=
  mkBackend (fun _ => Some []) (fun _ => true) (fun _ => true) (fun _ _ => true).

(** A backend whose searches all return [hits]. *)
Definition backend_returning (hits : list MemoryRecord) : Backend :=
  mkBackend (fun _ => Some hits) (fun _ => true) (fun _ => true) (fun _ _ => true).

(** ** The clock read of one normalized turn *)

Lemma convert_turn_created_at :
  forall clock uuid_of toISOString msg w m w',
    convert_turn clock uuid_of toISOString msg w = Some (m, w') ->
    mm_created_at m = toISOString (clock (w_ticks w)).
Proof.
  intros clock uuid_of toISOString msg w m w' H.
  unfold convert_turn in H.
  destruct (negb (truthy msg) || negb (is_object msg)); [discriminate |].
  destruct (js_get msg "role"); try discriminate.
  destruct (negb _); [discriminate |].
  destruct (String.eqb (js_trim _) ""); [discriminate |].
  destruct (includes _ _); [discriminate |].
  destruct (js_get msg "id"); simpl in H; inversion H; reflexivity.
Qed.

(** C1 (code_bug): on the test's turn carrying [timestamp: 1706900000000],
    [convertToMemoryMessages] stamps [created_at] with the wall clock, not with
    the turn's timestamp. *)
Theorem C1_created_at_ignores_timestamp :
  fst (convertToMemoryMessages fixed_clock uuid_seq iso_of [turn_with_timestamp] w0)
    = [mkMemoryMessage "user" "Hello" "msg-1" (iso_of 1760000000000)]
  /\ iso_of 1760000000000 <> iso_of 1706900000000.
Proof.
  split.
  - vm_compute. reflexivity.
  - vm_compute. discriminate.
Qed.

(** C2 (code_bug): with [workingMemorySessionId] configured, [agent_end]
    still writes working memory under the hook's session key. *)
Theorem C2_session_override_ignored :
  fst (agent_end fixed_clock uuid_seq iso_of cfg_with_session_override empty_backend
         true (Some [turn_with_timestamp]) (Some "agent:main") w0)
    = [ReqPutWorkingMemory "agent:main"
         [mkMemoryMessage "user" "Hello" "msg-1" (iso_of 1760000000000)]]
  /\ cfg_workingMemorySessionId cfg_with_session_override = Some "fixed-session".
Proof. split; vm_compute; reflexivity. Qed.

(** [agent_end] does not read [workingMemorySessionId] at all. *)
Lemma agent_end_independent_of_override :
  forall clock uuid_of toISOString cfg be success msgs key w o,
    agent_end clock uuid_of toISOString cfg be success msgs key w
    = agent_end clock uuid_of toISOString
        (mkMemoryConfig (cfg_serverUrl cfg) (cfg_namespace cfg) (cfg_userId cfg) o
           (cfg_minScore cfg) (cfg_recallLimit cfg) (cfg_extractionStrategy cfg)
           (cfg_customPrompt cfg)) be success msgs key w.
Proof. reflexivity. Qed.

(** ** Scores *)

Lemma qltb_true_iff : forall x y, qltb x y = true <-> x < y.
Proof.
  intros x y. unfold qltb. rewrite negb_true_iff. split.
  - intro H. apply Qnot_le_lt. intro Hle.
    apply Qle_bool_iff in Hle. congruence.
  - intro H. destruct (Qle_bool y x) eqn:E; [| reflexivity].
    apply Qle_bool_iff in E. exfalso. apply (Qlt_not_le x y); assumption.
Qed.

Lemma score_nonneg : forall d, 0 <= score_of d.
Proof. intro d. unfold score_of. apply Q.le_max_l. Qed.

Lemma score_le_one : forall d, 0 <= dist_or_zero d -> score_of d <= 1.
Proof.
  intros d Hd. unfold score_of. apply Q.max_lub; lra.
Qed.

Lemma score_absent : score_of DistAbsent == 1.
Proof. vm_compute. reflexivity. Qed.

(** C4 (counterexample): a negative distance gives a score above 1; the code
    only clamps from below. *)
Lemma C4_negative_distance_score_above_one :
  score_of (DistNum ((-1) # 2)) == 3 # 2 /\ 1 < score_of (DistNum ((-1) # 2)).
Proof. split; vm_compute; reflexivity. Qed.

(** C4 (amended): the score of a result with numeric distance [d] is
    [max(0, 1 - d)], for every [d]. It is never negative. It is at most 1
    when [d >= 0]; for [d < 0] nothing clamps it from above and it is
    [1 - d > 1]. Distance 0 gives 1, distance 1 gives 0, distance 1.5 gives
    0, and an absent distance counts as 0 and gives 1. *)
Theorem C4_score_derivation :
  (forall d : Q,
     score_of (DistNum d) = Qmax 0 (1 - d)
     /\ 0 <= score_of (DistNum d)
     /\ (0 <= d -> score_of (DistNum d) <= 1)
     /\ (d < 0 -> score_of (DistNum d) == 1 - d /\ 1 < score_of (DistNum d)))
  /\ score_of (DistNum 0) == 1
  /\ score_of (DistNum 1) == 0
  /\ score_of (DistNum (3 # 2)) == 0
  /\ score_of DistAbsent == 1.
Proof.
  split.
  - intro d. split; [reflexivity |].
    split; [apply score_nonneg |].
    split; [intro Hd; apply score_le_one; exact Hd |].
    intro Hd. unfold score_of, dist_or_zero.
    assert (E : Qmax 0 (1 - d) == 1 - d) by (apply Q.max_r; lra).
    split; [exact E | rewrite E; lra].
  - repeat split; vm_compute; reflexivity.
Qed.

(** ** memory_store *)

Lemma duplicate_distance_iff_score :
  forall d, dist_lt (DistNum d) DUPLICATE_DISTANCE = true <-> 19 # 20 < score_of (DistNum d).
Proof.
  intro d. simpl. rewrite qltb_true_iff. unfold score_of, dist_or_zero, DUPLICATE_DISTANCE.
  rewrite Q.max_lt_iff. split.
  - intro H. right. lra.
  - intros [H | H]; lra.
Qed.

Lemma js_trim_empty : js_trim "" = "".
Proof. reflexivity. Qed.

(** C3 (counterexample): distance 0.05 gives score 0.95, yet the store
    creates a new entry instead of reporting a duplicate. *)
Lemma C3_score_095_not_duplicate :
  19 # 20 <= score_of (DistNum (5 # 100))
  /\ fst (fst (memory_store uuid_seq cfg_with_session_override
          (backend_returning [mkMemoryRecord "m-1" "I like tea" (DistNum (5 # 100))])
          "I like tea" None w0))
     = StoreCreated "uuid-0".
Proof.
  split.
  - apply Qle_bool_imp_le. vm_compute. reflexivity.
  - vm_compute. reflexivity.
Qed.

(** The entry [memory_store] creates for [text]. *)
Definition store_entry (uuid_of : nat -> string) (cfg : MemoryConfig) (text : string)
    (category : option MemoryCategory) (w : World) : NewEntry :=
  mkNewEntry (uuid_of (w_uuids w)) text
    [category_name (match category with Some c => c | None => Other end)]
    (cfg_namespace cfg).

(** What [memory_store] does after a successful search that found no
    duplicate: one create request with one entry, and the outcome the
    backend's answer to that create decides. *)
Definition store_creates (uuid_of : nat -> string) (cfg : MemoryConfig) (be : Backend)
    (text : string) (category : option MemoryCategory) (w : World)
    (o : StoreOutcome) (reqs : list request) : Prop :=
  reqs = [ReqSearch (search_request cfg text 1 None);
          ReqCreate [store_entry uuid_of cfg text category w]]
  /\ o = (if be_create be [store_entry uuid_of cfg text category w]
          then StoreCreated (uuid_of (w_uuids w)) else StoreFailed).

(** C3 (amended): for non-blank text, when the 1-result search fails the call
    fails without writing; when its top hit has a distance below 0.05 (a
    numeric distance [d] with [d < 0.05], i.e. score above 0.95, or [null]),
    the call reports that hit's id and text as a duplicate and writes nothing;
    otherwise (no hit, distance at least 0.05, or no distance) it issues
    exactly one create request holding one entry with the next fresh UUID,
    the text and the single topic [category] (default ["other"]); the outcome
    is created with that UUID when the backend accepts this create, and a
    failure when the create throws. *)
Theorem C3_store_duplicate_or_create
    (uuid_of : nat -> string) (cfg : MemoryConfig) (be : Backend) (text : string)
    (category : option MemoryCategory) (w : World) (Htext : js_trim text <> "") :
  (forall d, dist_lt (DistNum d) DUPLICATE_DISTANCE = true <-> 19 # 20 < score_of (DistNum d))
  /\
  let req := search_request cfg text 1 None in
  let '(o, reqs, _) := memory_store uuid_of cfg be text category w in
  match be_search be req with
  | None => o = StoreFailed /\ reqs = [ReqSearch req]
  | Some (m :: _) =>
      if dist_lt (mr_dist m) DUPLICATE_DISTANCE
      then o = StoreDuplicate (mr_id m) (mr_text m) /\ reqs = [ReqSearch req]
      else store_creates uuid_of cfg be text category w o reqs
  | Some [] => store_creates uuid_of cfg be text category w o reqs
  end.
Proof.
  split; [exact duplicate_distance_iff_score |].
  cbv zeta.
  assert (Hne : String.eqb text "" = false).
  { destruct (String.eqb text "") eqn:E; [| reflexivity].
    apply String.eqb_eq in E. subst. exfalso. apply Htext. reflexivity. }
  assert (Htr : String.eqb (js_trim text) "" = false).
  { apply String.eqb_neq. exact Htext. }
  unfold memory_store. rewrite Hne, Htr. simpl orb. cbv iota.
  unfold store_creates, store_entry, randomUUID.
  destruct (be_search be (search_request cfg text 1 None)) as [[| m rest] |].
  - destruct (be_create be _); simpl; split; reflexivity.
  - destruct (dist_lt (mr_dist m) DUPLICATE_DISTANCE).
    + simpl. split; reflexivity.
    + destruct (be_create be _); simpl; split; reflexivity.
  - simpl. split; reflexivity.
Qed.

Lemma C3_store_duplicate_or_create_witness :
  js_trim "I like tea" <> ""
  /\ fst (fst (memory_store uuid_seq cfg_with_session_override (backend_returning [])
                 "I like tea" None w0)) = StoreCreated "uuid-0".
Proof.
  split; [vm_compute; discriminate |].
  pose proof (C3_store_duplicate_or_create uuid_seq cfg_with_session_override
                (backend_returning []) "I like tea" None w0
                ltac:(vm_compute; discriminate)) as [_ H].
  vm_compute in H. destruct H as [_ H]. exact H.
Defined.

(** ** Message normalizer *)

(** The shape of every emitted message. *)
Definition canonical (m : MemoryMessage) : Prop :=
  (mm_role m = "user" \/ mm_role m = "assistant")
  /\ js_trim (mm_content m) <> ""
  /\ includes RELEVANT_MEMORIES_MARKER (mm_content m) = false.

Lemma convert_turn_canonical :
  forall clock uuid_of toISOString msg w m w',
    convert_turn clock uuid_of toISOString msg w = Some (m, w') -> canonical m.
Proof.
  intros clock uuid_of toISOString msg w m w' H.
  unfold convert_turn in H.
  destruct (negb (truthy msg) || negb (is_object msg)); [discriminate |].
  destruct (js_get msg "role") as [| | | | role | |]; try discriminate.
  destruct (negb (String.eqb role "user" || String.eqb role "assistant")) eqn:Er;
    [discriminate |].
  destruct (String.eqb (js_trim _) "") eqn:Et; [discriminate |].
  destruct (includes _ _) eqn:Ei; [discriminate |].
  assert (Hm : mm_role m = role
               /\ mm_content m = extractTextContent (js_get msg "content")).
  { destruct (js_get msg "id"); simpl in H; inversion H; subst; split; reflexivity. }
  destruct Hm as [Hr Hc]. unfold canonical. rewrite Hr, Hc.
  repeat split.
  - apply negb_false_iff, orb_true_iff in Er.
    destruct Er as [E | E]; apply String.eqb_eq in E; [left | right]; exact E.
  - apply String.eqb_neq. exact Et.
  - exact Ei.
Qed.

Lemma convert_canonical :
  forall clock uuid_of toISOString msgs w,
    Forall canonical (fst (convertToMemoryMessages clock uuid_of toISOString msgs w)).
Proof.
  intros clock uuid_of toISOString msgs.
  induction msgs as [| msg rest IH]; intro w; simpl.
  - constructor.
  - destruct (convert_turn clock uuid_of toISOString msg w) as [[m w1] |] eqn:E.
    + specialize (IH w1).
      destruct (convertToMemoryMessages clock uuid_of toISOString rest w1) as [ms w2].
      simpl in *. constructor; [eapply convert_turn_canonical; eexact E | exact IH].
    + apply IH.
Qed.













Definition message_key (m : MemoryMessage) : string * string * string :=
  (mm_role m, mm_content m, mm_id m).

(** The messages of [l] with [created_at] re-read from the clock, from tick [k]. *)
Fixpoint restamp (clock : nat -> Z) (toISOString : Z -> string)
    (l : list MemoryMessage) (k : nat) : list MemoryMessage :=
  match l with
  | [] => []
  | m :: l' =>
      mkMemoryMessage (mm_role m) (mm_content m) (mm_id m) (toISOString (clock k))
        :: restamp clock toISOString l' (S k)
  end.

Lemma convert_turn_message :
  forall clock uuid_of toISOString m w,
    canonical m ->
    convert_turn clock uuid_of toISOString (message_to_turn m) w
    = Some (mkMemoryMessage (mm_role m) (mm_content m) (mm_id m)
              (toISOString (clock (w_ticks w))),
            mkWorld (S (w_ticks w)) (w_uuids w)).
Proof.
  intros clock uuid_of toISOString [role content id created] w [Hr [Ht Hi]].
  simpl in *. unfold convert_turn. cbn.
  assert (Hrole : (String.eqb role "user" || String.eqb role "assistant") = true).
  { destruct Hr as [-> | ->]; reflexivity. }
  rewrite Hrole. simpl negb. cbv iota.
  apply String.eqb_neq in Ht. unfold js_trim in Ht. rewrite Ht, Hi. reflexivity.
Qed.

Lemma convert_messages_restamp :
  forall clock uuid_of toISOString l w,
    Forall canonical l ->
    convertToMemoryMessages clock uuid_of toISOString (map message_to_turn l) w
    = (restamp clock toISOString l (w_ticks w),
       mkWorld (w_ticks w + List.length l) (w_uuids w)).
Proof.
  intros clock uuid_of toISOString l.
  induction l as [| m l IH]; intros w Hl; simpl.
  - rewrite Nat.add_0_r. destruct w; reflexivity.
  - inversion Hl as [| ? ? Hm Hl']; subst.
    rewrite convert_turn_message by exact Hm.
    rewrite IH by exact Hl'. simpl.
    rewrite Nat.add_succ_r. reflexivity.
Qed.

Lemma restamp_keys :
  forall clock toISOString l k,
    map message_key (restamp clock toISOString l k) = map message_key l.
Proof.
  intros clock toISOString l. induction l as [| m l IH]; intro k; simpl; [reflexivity |].
  rewrite IH. reflexivity.
Qed.

Lemma restamp_created_at :
  forall clock toISOString l k,
    map mm_created_at (restamp clock toISOString l k)
    = map (fun j => toISOString (clock j)) (seq k (List.length l)).
Proof.
  intros clock toISOString l. induction l as [| m l IH]; intro k; simpl; [reflexivity |].
  rewrite IH. reflexivity.
Qed.

Definition turn_with_id : jsval :=
  JObj [("role", JStr "user"); ("content", JStr "Hello"); ("id", JStr "msg-1")].

(** C7 (counterexample): normalizing the normalizer's own output again, one
    clock tick later, does not give back the same messages: [created_at] is
    re-stamped. *)
Lemma C7_second_pass_restamps :
  let first := convertToMemoryMessages ticking_clock uuid_seq iso_of [turn_with_id] w0 in
  let second := convertToMemoryMessages ticking_clock uuid_seq iso_of
                  (map message_to_turn (fst first)) (snd first) in
  fst second <> fst first.
Proof. vm_compute. discriminate. Qed.

(** C7 (amended): normalizing the normalizer's output again (the code has no
    cutoff) keeps every message, in the same order, with the same role,
    content and id, and draws no UUID; each [created_at] is replaced by a
    fresh clock reading, one per message. *)
Theorem C7_second_pass_keeps_messages :
  forall clock uuid_of toISOString msgs w w',
    let out := fst (convertToMemoryMessages clock uuid_of toISOString msgs w) in
    let again := convertToMemoryMessages clock uuid_of toISOString (map message_to_turn out) w' in
    map message_key (fst again) = map message_key out
    /\ map mm_created_at (fst again)
       = map (fun j => toISOString (clock j)) (seq (w_ticks w') (List.length out))
    /\ w_uuids (snd again) = w_uuids w'.
Proof.
  intros clock uuid_of toISOString msgs w w' out again.
  unfold again. rewrite convert_messages_restamp by apply convert_canonical.
  simpl. split; [apply restamp_keys | split; [apply restamp_created_at | reflexivity]].
Qed.

(** ** memory_forget *)

(** [exactly one match scoring above 0.9]. *)
Definition single_confident_match (ms : list MemoryRecord) : Prop :=
  exists m, ms = [m] /\ AUTO_DELETE_SCORE < score_of (mr_dist m).

(** C6: in query mode (no truthy [memoryId]) the forget tool searches the top
    5 matches; it issues a deletion exactly when the search returns one match
    scoring above 0.9, and then deletes that match; for any other non-empty
    result it returns the candidates (the text lists each id's first 8
    characters and the first 60 of its text; the details carry id, text and
    score) and deletes nothing; with no truthy query either, it reports the
    missing parameter and issues no request. *)
Theorem C6_forget_by_query
    (cfg : MemoryConfig) (be : Backend) (query memoryId : option string)
    (Hid : truthy_param memoryId = None) :
  (truthy_param query = None -> memory_forget cfg be query memoryId = (ForgetMissingParam, []))
  /\
  (forall q, truthy_param query = Some q ->
    let req := search_request cfg q 5 None in
    let '(o, reqs) := memory_forget cfg be query memoryId in
    ((exists id, In (ReqDelete id) reqs)
       <-> (exists ms, be_search be req = Some ms /\ single_confident_match ms))
    /\ (forall m, be_search be req = Some [m] -> AUTO_DELETE_SCORE < score_of (mr_dist m) ->
          reqs = [ReqSearch req; ReqDelete (mr_id m)]
          /\ (o = ForgetDeleted (mr_id m) \/ o = ForgetFailed))
    /\ (forall ms, be_search be req = Some ms -> ms <> [] -> ~ single_confident_match ms ->
          o = ForgetCandidates (candidates_text (map to_scored ms)) (map to_scored ms)
          /\ reqs = [ReqSearch req])).
Proof.
  unfold memory_forget. rewrite Hid. split.
  - intro Hq. rewrite Hq. reflexivity.
  - intros q Hq. rewrite Hq. cbv zeta. unfold forget_by_query.
    destruct (be_search be (search_request cfg q 5 None)) as [ms |] eqn:Es.
    + destruct ms as [| m [| m2 rest]].
      * simpl. split; [| split].
        -- split; [intros [id [H | []]]; discriminate |].
           intros [ms [H [m [-> _]]]]. discriminate.
        -- intros m H. discriminate.
        -- intros ms H Hne. inversion H. subst. contradiction.
      * simpl. destruct (qltb AUTO_DELETE_SCORE (score_of (mr_dist m))) eqn:Eq.
        -- apply qltb_true_iff in Eq. unfold delete_memory.
           destruct (be_delete be (mr_id m)) eqn:Ed; simpl; (split; [| split]).
           1, 4: split; [intros _; exists [m]; split; [reflexivity | exists m; split; [reflexivity | exact Eq]]
                       | intros _; exists (mr_id m); simpl; right; left; reflexivity].
           1, 3: intros m' Hm' _; inversion Hm'; subst; split; auto.
           all: intros ms Hms _ Hn; exfalso; apply Hn; inversion Hms; subst;
                exists m; split; [reflexivity | exact Eq].
        -- assert (Hn : ~ AUTO_DELETE_SCORE < score_of (mr_dist m)).
           { intro Hlt. apply qltb_true_iff in Hlt. congruence. }
           simpl. split; [| split].
           ++ split; [intros [id [H | []]]; discriminate |].
              intros [ms [H [m' [Hm Hs]]]]. rewrite Hm in H.
              inversion H; subst. contradiction.
           ++ intros m' H Hs. inversion H; subst. contradiction.
           ++ intros ms H _ _. inversion H; subst. split; reflexivity.
      * simpl. split; [| split].
        -- split; [intros [id [H | []]]; discriminate |].
           intros [ms [H [m' [Hm _]]]]. rewrite Hm in H. discriminate.
        -- intros m' H. discriminate.
        -- intros ms H _ _. inversion H; subst. split; reflexivity.
    + simpl. split; [| split].
      * split; [intros [id [H | []]]; discriminate |].
        intros [ms [H _]]. discriminate.
      * intros m H. discriminate.
      * intros ms H. discriminate.
Qed.

Definition tea_record : MemoryRecord := mkMemoryRecord "m-1" "I like tea" (DistNum 0).

Lemma C6_forget_by_query_witness :
  truthy_param None = None
  /\ snd (memory_forget cfg_with_session_override (backend_returning [tea_record]) (Some "tea") None)
     = [ReqSearch (search_request cfg_with_session_override "tea" 5 None); ReqDelete "m-1"].
Proof.
  split; [reflexivity |].
  pose proof (C6_forget_by_query cfg_with_session_override (backend_returning [tea_record])
                (Some "tea") None eq_refl) as [_ H].
  specialize (H "tea" eq_refl). cbv zeta in H.
  destruct (memory_forget cfg_with_session_override (backend_returning [tea_record])
              (Some "tea") None) as [o reqs].
  destruct H as [_ [H _]].
  destruct (H tea_record eq_refl) as [Hr _].
  - apply qltb_true_iff. vm_compute. reflexivity.
  - exact Hr.
Defined.

(** C9 (counterexample): an empty [memoryId] is falsy, so with a query the
    tool searches by the query instead of deleting by id. *)
Lemma C9_empty_id_uses_query :
  snd (memory_forget cfg_with_session_override (backend_returning []) (Some "tea") (Some ""))
  = [ReqSearch (search_request cfg_with_session_override "tea" 5 None)].
Proof. vm_compute. reflexivity. Qed.

(** C9 (amended): when a non-empty [memoryId] is supplied, the forget tool
    issues the DELETE of that id and no other request (the query, if any, is
    never searched), whatever the backend answers; it reports the deletion,
    or a failure when the DELETE is not ok. *)
Theorem C9_forget_by_id_precedence
    (cfg : MemoryConfig) (be : Backend) (query : option string) (id : string)
    (Hid : id <> "") :
  memory_forget cfg be query (Some id) = delete_memory be id
  /\ snd (memory_forget cfg be query (Some id)) = [ReqDelete id]
  /\ (fst (memory_forget cfg be query (Some id)) = ForgetDeleted id
      \/ fst (memory_forget cfg be query (Some id)) = ForgetFailed).
Proof.
  unfold memory_forget, truthy_param.
  apply String.eqb_neq in Hid. rewrite Hid.
  unfold delete_memory. destruct (be_delete be id); simpl; auto.
Qed.

Lemma C9_forget_by_id_precedence_witness :
  "m-1" <> ""
  /\ snd (memory_forget cfg_with_session_override (backend_returning [tea_record])
            (Some "tea") (Some "m-1")) = [ReqDelete "m-1"].
Proof.
  split; [discriminate |].
  apply (C9_forget_by_id_precedence cfg_with_session_override (backend_returning [tea_record])
           (Some "tea") "m-1"). discriminate.
Defined.

(** ** Absent distances *)

Lemma parseMinScore_le_one :
  forall raw x, parseMinScore raw = Some x -> x <= 1.
Proof.
  intros raw x H. destruct raw; simpl in H; inversion H; subst;
    try (apply Qle_bool_imp_le; vm_compute; reflexivity).
  apply Q.max_lub; [apply Qle_bool_imp_le; vm_compute; reflexivity | apply Q.le_min_l].
Qed.

Lemma absent_passes :
  forall x, x <= 1 -> Qle_bool x (score_of DistAbsent) = true.
Proof.
  intros x Hx. apply Qle_bool_iff. rewrite score_absent. exact Hx.
Qed.

Lemma filter_all_true :
  forall {A} (f : A -> bool) l, Forall (fun a => f a = true) l -> filter f l = l.
Proof.
  intros A f l H. induction H as [| a l Ha _ IH]; simpl; [reflexivity |].
  rewrite Ha, IH. reflexivity.
Qed.

Lemma parseMinScore_some :
  forall raw, exists x, parseMinScore raw = Some x /\ x <= 1.
Proof.
  intro raw. destruct (parseMinScore raw) as [x |] eqn:E.
  - exists x. split; [reflexivity | eapply parseMinScore_le_one; exact E].
  - destruct raw; discriminate.
Qed.

Lemma absent_results_kept :
  forall x ms, x <= 1 -> Forall (fun m => mr_dist m = DistAbsent) ms ->
    filter (fun r => Qle_bool x (sm_score r)) (map to_scored ms) = map to_scored ms.
Proof.
  intros x ms Hx Hms. apply filter_all_true. apply Forall_map.
  eapply Forall_impl; [| exact Hms].
  intros m Hm. unfold to_scored. simpl. rewrite Hm. apply absent_passes. exact Hx.
Qed.

Lemma in_filter_kept :
  forall {A} (f : A -> bool) l x, In x l -> f x = true ->
    exists out, filter f l = out /\ out <> [] /\ In x out.
Proof.
  intros A f l x Hx Hf. exists (filter f l).
  assert (Hin : In x (filter f l)) by (apply filter_In; split; assumption).
  split; [reflexivity | split; [intro E; rewrite E in Hin; contradiction | exact Hin]].
Qed.

(** C10: a search result without a distance scores 1 ([dist ?? 0]). With the
    parsed configuration's minimum score, any such result, wherever it sits
    in the returned list and whatever the other results are, is among the
    results [memory_recall] reports and among the memories the
    [before_agent_start] search injects; a single such match of a forget
    query scores above 0.9 and is deleted. In [memory_store] a top hit
    without a distance is never a duplicate ([undefined < 0.05] is false):
    a new entry is created. *)
Theorem C10_absent_distance
    (raw : jsval) (cfg : MemoryConfig) (Hcfg : cfg_minScore cfg = parseMinScore raw) :
  score_of DistAbsent == 1
  /\ (forall be query limit ms m,
        be_search be (search_request cfg query
                        (match limit with Some l => l | None => 5%Z end) None) = Some ms ->
        In m ms -> mr_dist m = DistAbsent ->
        exists out, fst (memory_recall cfg be query limit) = RecallFound out
                    /\ In (to_scored m) out)
  /\ (forall be p ms m,
        (5 <= String.length p)%nat ->
        (5 <= String.length (stripEnvelopeForSearch p))%nat ->
        be_search be (search_request cfg (stripEnvelopeForSearch p) (cfg_recallLimit cfg)
                        (match cfg_minScore cfg with Some x => Some (1 - x) | None => None end))
          = Some ms ->
        In m ms -> mr_dist m = DistAbsent ->
        exists out, fst (before_agent_start_search cfg be (Some p)) = Some out
                    /\ In (to_scored m) out)
  /\ (forall be q id text,
        q <> "" ->
        be_search be (search_request cfg q 5 None) = Some [mkMemoryRecord id text DistAbsent] ->
        AUTO_DELETE_SCORE < score_of DistAbsent
        /\ snd (memory_forget cfg be (Some q) None)
           = [ReqSearch (search_request cfg q 5 None); ReqDelete id])
  /\ (forall uuid_of be text category w m rest,
        js_trim text <> "" ->
        be_search be (search_request cfg text 1 None) = Some (m :: rest) ->
        mr_dist m = DistAbsent ->
        snd (fst (memory_store uuid_of cfg be text category w))
        = [ReqSearch (search_request cfg text 1 None);
           ReqCreate [store_entry uuid_of cfg text category w]]
        /\ fst (fst (memory_store uuid_of cfg be text category w))
           = (if be_create be [store_entry uuid_of cfg text category w]
              then StoreCreated (uuid_of (w_uuids w)) else StoreFailed)).
Proof.
  destruct (parseMinScore_some raw) as [x [Hx Hle]].
  rewrite Hx in Hcfg.
  assert (Hm_in : forall m, mr_dist m = DistAbsent -> Qle_bool x (sm_score (to_scored m)) = true).
  { intros m Hm. unfold to_scored. simpl. rewrite Hm. apply absent_passes. exact Hle. }
  split; [exact score_absent |].
  split; [| split; [| split]].
  - intros be query limit ms m Hs Hin Hm.
    unfold memory_recall. rewrite Hs.
    destruct ms as [| m0 rest]; [contradiction |].
    destruct (in_filter_kept (passes_min_score (cfg_minScore cfg)) (map to_scored (m0 :: rest))
                (to_scored m)) as [out [Eo [Hne Hout]]].
    { apply in_map. exact Hin. }
    { unfold passes_min_score. rewrite Hcfg. apply Hm_in. exact Hm. }
    rewrite Eo. destruct out as [| o os]; [contradiction |].
    exists (o :: os). split; [reflexivity | exact Hout].
  - intros be p ms m Hp Hq Hs Hin Hm.
    unfold before_agent_start_search.
    assert (E1 : Nat.ltb (String.length p) 5 = false) by (apply Nat.ltb_ge; exact Hp).
    assert (E2 : Nat.ltb (String.length (stripEnvelopeForSearch p)) 5 = false)
      by (apply Nat.ltb_ge; exact Hq).
    assert (E3 : String.eqb (stripEnvelopeForSearch p) "" = false).
    { apply String.eqb_neq. intro E. rewrite E in Hq. simpl in Hq. lia. }
    rewrite E1, E2, E3. simpl orb. cbv iota zeta. rewrite Hs.
    destruct ms as [| m0 rest]; [contradiction |].
    destruct (in_filter_kept (hook_passes (cfg_minScore cfg)) (map to_scored (m0 :: rest))
                (to_scored m)) as [out [Eo [Hne Hout]]].
    { apply in_map. exact Hin. }
    { unfold hook_passes. rewrite Hcfg. apply Hm_in. exact Hm. }
    rewrite Eo. destruct out as [| o os]; [contradiction |].
    exists (o :: os). split; [reflexivity | exact Hout].
  - intros be q id text Hq Hs.
    assert (Hlt : AUTO_DELETE_SCORE < score_of DistAbsent).
    { apply qltb_true_iff. vm_compute. reflexivity. }
    split; [exact Hlt |].
    unfold memory_forget, truthy_param. apply String.eqb_neq in Hq. rewrite Hq.
    unfold forget_by_query. rewrite Hs.
    cbn [map to_scored sm_score sm_id mr_dist mr_id mr_text].
    apply qltb_true_iff in Hlt. rewrite Hlt.
    unfold delete_memory. destruct (be_delete be id); reflexivity.
  - intros uuid_of be text category w m rest Ht Hs Hm.
    assert (Hne : String.eqb text "" = false).
    { apply String.eqb_neq. intro E. subst. apply Ht. reflexivity. }
    assert (Htr : String.eqb (js_trim text) "" = false) by (apply String.eqb_neq; exact Ht).
    unfold memory_store. rewrite Hne, Htr. simpl orb. cbv iota. rewrite Hs, Hm.
    simpl. unfold store_entry. destruct (be_create be _); split; reflexivity.
Qed.

(** A search answer mixing a scored result below the default threshold with
    a result that has no distance. *)
Definition mixed_hits : list MemoryRecord :=
  [mkMemoryRecord "m-1" "I like tea" (DistNum (9 # 10));
   mkMemoryRecord "m-2" "I like coffee" DistAbsent].

Lemma C10_absent_distance_witness :
  cfg_minScore cfg_with_session_override = parseMinScore JUndef
  /\ fst (memory_recall cfg_with_session_override (backend_returning mixed_hits) "drinks" None)
     = RecallFound [to_scored (mkMemoryRecord "m-2" "I like coffee" DistAbsent)].
Proof.
  split; [reflexivity |].
  destruct (C10_absent_distance JUndef cfg_with_session_override eq_refl) as [_ [H _]].
  destruct (H (backend_returning mixed_hits) "drinks" None mixed_hits
              (mkMemoryRecord "m-2" "I like coffee" DistAbsent))
    as [out [E Hin]]; [reflexivity | right; left; reflexivity | reflexivity |].
  rewrite E. f_equal. vm_compute in E. injection E as E. subst out. reflexivity.
Defined.

(** ** Envelope stripping *)

Lemma span_header_app :
  forall h r, has_rbracket h = false ->
    span_header (h ++ String RBRACKET r) = (h, String RBRACKET r).
Proof.
  induction h as [| c h IH]; intros r Hh; simpl in *.
  - reflexivity.
  - apply orb_false_iff in Hh. destruct Hh as [Hc Hh].
    rewrite Hc, (IH r Hh). reflexivity.
Qed.

Lemma envelope_match_header :
  forall h r, h <> "" -> has_rbracket h = false ->
    envelope_match ("[" ++ h ++ "]" ++ r)
    = Some (S (String.length h + S (ws_prefix_len r)), h).
Proof.
  intros h r Hne Hh. unfold envelope_match. simpl.
  change (String "]" r) with (String RBRACKET r).
  rewrite (span_header_app h r Hh). simpl.
  apply String.eqb_neq in Hne. rewrite Hne. reflexivity.
Qed.

Lemma str_drop_header :
  forall h r k,
    str_drop (S (String.length h + S k)) ("[" ++ h ++ "]" ++ r) = str_drop k r.
Proof.
  intros h r k. simpl. induction h as [| c h IH]; simpl; [reflexivity | exact IH].
Qed.

Lemma str_drop_ws_prefix : forall r, str_drop (ws_prefix_len r) r = trim_start r.
Proof.
  induction r as [| c r IH]; simpl; [reflexivity |].
  destruct (is_ws c); simpl; [exact IH | reflexivity].
Qed.

Lemma trim_start_idem : forall r, trim_start (trim_start r) = trim_start r.
Proof.
  induction r as [| c r IH]; simpl; [reflexivity |].
  destruct (is_ws c) eqn:E; [exact IH | simpl; rewrite E; reflexivity].
Qed.

Lemma filter_length_le' :
  forall {A} (f : A -> bool) l, (List.length (filter f l) <= List.length l)%nat.
Proof.
  intros A f l. induction l as [| a l IH]; simpl; [lia |].
  destruct (f a); simpl; lia.
Qed.

(** A line of a multi-line prompt: no line feed, and no trailing carriage
    return (a CR before the line feed belongs to the [\r?\n] separator). *)
Fixpoint has_nl (s : string) : bool :=
  match s with
  | EmptyString => false
  | String c s' => Ascii.eqb c NL || has_nl s'
  end.

Definition line_ok (l : string) : Prop := has_nl l = false /\ drop_trailing_cr l = l.

Lemma string_app_assoc : forall a b c : string, (a ++ b) ++ c = a ++ (b ++ c).
Proof. induction a as [| x a IH]; intros b c; simpl; [reflexivity | rewrite IH; reflexivity]. Qed.

Lemma string_app_nil_r : forall a : string, a ++ "" = a.
Proof. induction a as [| x a IH]; simpl; [reflexivity | rewrite IH; reflexivity]. Qed.

Lemma split_lines_aux_line :
  forall l s cur, has_nl l = false ->
    split_lines_aux (l ++ s) cur = split_lines_aux s (cur ++ l).
Proof.
  induction l as [| c l IH]; intros s cur Hl; simpl in *.
  - rewrite string_app_nil_r. reflexivity.
  - apply orb_false_iff in Hl. destruct Hl as [Hc Hl].
    rewrite Hc, IH by exact Hl. rewrite string_app_assoc. reflexivity.
Qed.

Lemma split_join_lines :
  forall ls, ls <> [] -> Forall line_ok ls ->
    split_lines (String.concat (String NL EmptyString) ls) = ls.
Proof.
  unfold split_lines.
  induction ls as [| l ls IH]; intros Hne Hall; [contradiction |].
  inversion Hall as [| ? ? [Hnl Hcr] Hall']; subst.
  destruct ls as [| l2 ls].
  - simpl. rewrite <- (string_app_nil_r l) at 1.
    rewrite split_lines_aux_line by exact Hnl. reflexivity.
  - change (String.concat (String NL "") (l :: l2 :: ls))
      with (l ++ String NL "" ++ String.concat (String NL "") (l2 :: ls)).
    rewrite split_lines_aux_line by exact Hnl. simpl.
    rewrite Hcr. f_equal. exact (IH ltac:(discriminate) Hall').
Qed.

Lemma filter_idem :
  forall {A} (f : A -> bool) l, filter f (filter f l) = filter f l.
Proof.
  intros A f l. induction l as [| a l IH]; simpl; [reflexivity |].
  destruct (f a) eqn:E; simpl; [rewrite E, IH | rewrite IH]; reflexivity.
Qed.

Lemma Forall_filter_keep :
  forall {A} (P : A -> Prop) (f : A -> bool) l, Forall P l -> Forall P (filter f l).
Proof.
  intros A P f l H. apply Forall_forall. intros x Hx.
  apply filter_In in Hx. destruct Hx as [Hx _].
  exact (proj1 (Forall_forall P l) H x Hx).
Qed.

Lemma strip_congr :
  forall a b, without_message_id_lines a = without_message_id_lines b ->
    stripEnvelopeForSearch a = stripEnvelopeForSearch b.
Proof. intros a b H. unfold stripEnvelopeForSearch. rewrite H. reflexivity. Qed.

Definition keep_line (line : string) : bool := negb (is_message_id_line line).

Lemma without_lines_join :
  forall ls, ls <> [] -> Forall line_ok ls ->
    without_message_id_lines (String.concat (String NL EmptyString) ls)
    = String.concat (String NL EmptyString) (filter keep_line ls).
Proof.
  intros ls Hne Hall. unfold without_message_id_lines, kept_lines.
  rewrite split_join_lines by assumption. reflexivity.
Qed.

Lemma without_lines_idem :
  forall ls, ls <> [] -> Forall line_ok ls ->
    without_message_id_lines (String.concat (String NL EmptyString) (filter keep_line ls))
    = String.concat (String NL EmptyString) (filter keep_line ls).
Proof.
  intros ls Hne Hall.
  destruct (filter keep_line ls) as [| l ls'] eqn:E.
  - reflexivity.
  - rewrite <- E. rewrite without_lines_join.
    + rewrite filter_idem. reflexivity.
    + rewrite E. discriminate.
    + apply Forall_filter_keep. exact Hall.
Qed.

Definition nonempty_token (t : string) : bool := negb (String.eqb t "").

(** C8: [stripEnvelopeForSearch] (1) removes a bracketed header at the very
    start of the text left by the [message_id] filter when the header, which
    contains no [']'], has at least two whitespace-separated tokens (what
    follows it is trimmed and returned); (2) removes every standalone
    [[message_id: ...]] line: on a text made of lines, the result is the
    result on the same text without those lines; (3) maps
    ["[general user 12:00] Hello"] to ["Hello"] and
    ["[message_id: abc]\nWhat's the weather?"] to ["What's the weather?"]. *)
Theorem C8_strip_envelope :
  (forall text h r,
     without_message_id_lines text = "[" ++ h ++ "]" ++ r ->
     has_rbracket h = false ->
     (2 <= List.length (filter nonempty_token (split_ws h)))%nat ->
     stripEnvelopeForSearch text = js_trim r)
  /\ (forall ls, ls <> [] -> Forall line_ok ls ->
        stripEnvelopeForSearch (String.concat (String NL EmptyString) ls)
        = stripEnvelopeForSearch
            (String.concat (String NL EmptyString) (filter keep_line ls)))
  /\ stripEnvelopeForSearch "[general user 12:00] Hello" = "Hello"
  /\ stripEnvelopeForSearch ("[message_id: abc]" ++ String NL "What's the weather?")
     = "What's the weather?".
Proof.
  split; [| split; [| split]].
  - intros text h r Hres Hh Htok.
    assert (Hne : h <> "").
    { intro E. subst. simpl in Htok. lia. }
    assert (Hlen : Nat.leb 2 (List.length (split_ws h)) = true).
    { apply Nat.leb_le. pose proof (filter_length_le' nonempty_token (split_ws h)). lia. }
    unfold stripEnvelopeForSearch. rewrite Hres.
    rewrite (envelope_match_header h r Hne Hh), Hlen.
    rewrite str_drop_header, str_drop_ws_prefix.
    unfold js_trim. rewrite trim_start_idem. reflexivity.
  - intros ls Hne Hall. apply strip_congr.
    rewrite without_lines_join by assumption.
    symmetry. apply without_lines_idem; assumption.
  - vm_compute. reflexivity.
  - vm_compute. reflexivity.
Qed.

Lemma C8_strip_envelope_witness :
  without_message_id_lines "[general user 12:00] Hello" = "[" ++ "general user 12:00" ++ "]" ++ " Hello"
  /\ stripEnvelopeForSearch "[general user 12:00] Hello" = js_trim " Hello".
Proof.
  split; [vm_compute; reflexivity |].
  apply (proj1 C8_strip_envelope "[general user 12:00] Hello" "general user 12:00" " Hello");
    vm_compute; [reflexivity | reflexivity | lia].
Defined.

(** * Further properties: configuration, summary views and lifecycle hooks *)

(** ** Configuration parsing *)

Lemma allowed_key_spec : forall k, allowed_key k = true <-> In k ALLOWED_CONFIG_KEYS.
Proof.
  intro k. unfold allowed_key. rewrite existsb_exists. split.
  - intros [x [Hin Heq]]. apply String.eqb_eq in Heq. subst. exact Hin.
  - intro H. exists k. split; [exact H | apply String.eqb_refl].
Qed.

Lemma in_unknown_keys : forall props k,
  In k (unknown_keys props) <-> In k (map fst props) /\ ~ In k ALLOWED_CONFIG_KEYS.
Proof.
  intros props k. unfold unknown_keys. rewrite filter_In, negb_true_iff.
  rewrite <- allowed_key_spec. split.
  - intros [H1 H2]. split; [exact H1 | rewrite H2; discriminate].
  - intros [H1 H2]. split; [exact H1 | destruct (allowed_key k); [contradiction H2 |]; reflexivity].
Qed.

Lemma unknown_keys_nil : forall props,
  (forall k, In k (map fst props) -> In k ALLOWED_CONFIG_KEYS) -> unknown_keys props = [].
Proof.
  intros props H. destruct (unknown_keys props) as [| k ks] eqn:E; [reflexivity |].
  exfalso. assert (Hk : In k (unknown_keys props)) by (rewrite E; left; reflexivity).
  apply in_unknown_keys in Hk. destruct Hk as [H1 H2]. exact (H2 (H k H1)).
Qed.

Lemma unknown_keys_nil_allowed : forall props k,
  unknown_keys props = [] -> In k (map fst props) -> In k ALLOWED_CONFIG_KEYS.
Proof.
  intros props k E Hk. destruct (in_dec string_dec k ALLOWED_CONFIG_KEYS) as [Ha | Ha];
    [exact Ha |].
  assert (Hu : In k (unknown_keys props)) by (apply in_unknown_keys; auto).
  rewrite E in Hu. destruct Hu.
Qed.

Lemma parseStrategy_none : forall s,
  ~ In s ["discrete"; "summary"; "preferences"; "custom"] -> parseStrategy s = None.
Proof.
  intros s H. unfold parseStrategy.
  destruct (String.eqb_spec s "discrete"); [subst; exfalso; apply H; simpl; tauto |].
  destruct (String.eqb_spec s "summary"); [subst; exfalso; apply H; simpl; tauto |].
  destruct (String.eqb_spec s "preferences"); [subst; exfalso; apply H; simpl; tauto |].
  destruct (String.eqb_spec s "custom"); [subst; exfalso; apply H; simpl; tauto |].
  reflexivity.
Qed.

Lemma parse_ok_fields : forall env v pc,
  parseMemoryConfig env v = Ok pc ->
  exists props, v = JObj props /\ unknown_keys props = [] /\
    pc_autoCapture pc = match js_get v "autoCapture" with JBool false => false | _ => true end /\
    pc_autoRecall pc = match js_get v "autoRecall" with JBool false => false | _ => true end /\
    pc_minScore pc = match parseMinScore (js_get v "minScore") with
                     | Some m => m | None => DEFAULT_MIN_SCORE end /\
    pc_recallLimit pc = positive_int_or (js_get v "recallLimit") DEFAULT_RECALL_LIMIT /\
    pc_summaryTimeWindowDays pc =
      positive_int_or (js_get v "summaryTimeWindowDays") DEFAULT_SUMMARY_TIME_WINDOW_DAYS /\
    pc_summaryGroupBy pc = parseSummaryGroupBy (js_get v "summaryGroupBy") /\
    pc_customPrompt pc = string_opt (js_get v "customPrompt") /\
    check_custom_prompt (pc_extractionStrategy pc) (pc_customPrompt pc) = Ok tt.
Proof.
  intros env v pc H. destruct v; try discriminate.
  unfold parseMemoryConfig, assertAllowedKeys in H.
  destruct (unknown_keys props) as [| k ks] eqn:Eu; cbn [result_bind] in H; [| discriminate].
  destruct (js_get (JObj props) "extractionStrategy") eqn:Es; cbn [result_bind] in H.
  all: try (destruct (parseStrategy s) eqn:Ep; cbn [result_bind] in H; [| discriminate]).
  all: destruct (check_custom_prompt _ _) as [[] |] eqn:Ec; cbn [result_bind] in H; [| discriminate].
  all: destruct (resolveEnvVars env _) eqn:Er1; cbn [result_bind] in H; [| discriminate].
  all: destruct (resolve_opt env (js_get (JObj props) "apiKey")) eqn:Er2;
    cbn [result_bind] in H; [| discriminate].
  all: destruct (resolve_opt env (js_get (JObj props) "bearerToken")) eqn:Er3;
    cbn [result_bind] in H; [| discriminate].
  all: inversion H; subst; clear H; exists props; cbn [pc_autoCapture pc_autoRecall
    pc_minScore pc_recallLimit pc_summaryTimeWindowDays pc_summaryGroupBy pc_customPrompt
    pc_extractionStrategy]; repeat split; first [assumption | reflexivity].
Qed.

Lemma positive_int_or_ge_one : forall v d, (1 <= d)%Z -> (1 <= positive_int_or v d)%Z.
Proof. intros v d Hd. destruct v; simpl; lia. Qed.

Lemma parseSummaryGroupBy_nonempty : forall v, parseSummaryGroupBy v <> [].
Proof.
  intro v. destruct v; try discriminate. simpl.
  destruct (parse_group_by_fields elems); discriminate.
Qed.

Lemma parseMinScore_bounds : forall raw,
  0 <= match parseMinScore raw with Some m => m | None => DEFAULT_MIN_SCORE end <= 1.
Proof.
  intro raw. destruct raw; simpl; try (unfold DEFAULT_MIN_SCORE; split; lra).
  split; [apply Q.le_max_l |].
  apply Q.max_lub; [lra | apply Q.le_min_l].
Qed.

(** X2: an object with a key outside the nineteen allowed ones is rejected
    with [UnknownKeys ks], whatever the other fields and the environment, and
    [ks] lists exactly the keys of the object that are not allowed. *)
Theorem X_config_unknown_keys_rejected (env : string -> option string)
    (props : list (string * jsval)) (k : string)
    (Hk : In k (map fst props)) (Hnot : ~ In k ALLOWED_CONFIG_KEYS) :
  exists ks, parseMemoryConfig env (JObj props) = Err (UnknownKeys ks) /\ In k ks /\
    (forall k', In k' ks <-> In k' (map fst props) /\ ~ In k' ALLOWED_CONFIG_KEYS).
Proof.
  exists (unknown_keys props).
  assert (Hin : In k (unknown_keys props)) by (apply in_unknown_keys; auto).
  split; [| split; [exact Hin | apply in_unknown_keys]].
  unfold parseMemoryConfig, assertAllowedKeys.
  destruct (unknown_keys props) eqn:E; [destruct Hin | reflexivity].
Qed.

Lemma X_config_unknown_keys_rejected_witness :
  exists ks, parseMemoryConfig (fun _ => None)
      (JObj [("minScore", JNum 1); ("server", JStr "x"); ("debug", JBool true)])
    = Err (UnknownKeys ks) /\ In "debug" ks /\
    (forall k', In k' ks <-> In k' (map fst [("minScore", JNum 1); ("server", JStr "x");
                                          ("debug", JBool true)])
                          /\ ~ In k' ALLOWED_CONFIG_KEYS).
Proof.
  apply (X_config_unknown_keys_rejected (fun _ => None)
           [("minScore", JNum 1); ("server", JStr "x"); ("debug", JBool true)] "debug").
  - simpl; tauto.
  - vm_compute. intro H. repeat (destruct H as [H | H]; [discriminate |]). exact H.
Defined.

(** X3: with only allowed keys, a string [extractionStrategy] that is not one
    of "discrete", "summary", "preferences", "custom" is rejected with
    [InvalidStrategy s]. *)
Theorem X_config_invalid_strategy (env : string -> option string)
    (props : list (string * jsval)) (s : string)
    (Hk : forall k, In k (map fst props) -> In k ALLOWED_CONFIG_KEYS)
    (Hs : js_get (JObj props) "extractionStrategy" = JStr s)
    (Hv : ~ In s ["discrete"; "summary"; "preferences"; "custom"]) :
  parseMemoryConfig env (JObj props) = Err (InvalidStrategy s).
Proof.
  unfold parseMemoryConfig, assertAllowedKeys. rewrite (unknown_keys_nil props Hk).
  cbn [result_bind]. rewrite Hs, (parseStrategy_none s Hv). reflexivity.
Qed.

Lemma X_config_invalid_strategy_witness :
  parseMemoryConfig (fun _ => None) (JObj [("extractionStrategy", JStr "Summary")])
  = Err (InvalidStrategy "Summary").
Proof.
  apply X_config_invalid_strategy.
  - intros k Hk. simpl in Hk. destruct Hk as [Hk | []]. subst. vm_compute. tauto.
  - reflexivity.
  - simpl. intro H. repeat (destruct H as [H | H]; [discriminate |]). exact H.
Defined.

(** X4: with only allowed keys and [extractionStrategy] "custom", a
    [customPrompt] that is absent, not a string, or the empty string is
    rejected with [CustomPromptRequired]. *)
Theorem X_config_custom_requires_prompt (env : string -> option string)
    (props : list (string * jsval))
    (Hk : forall k, In k (map fst props) -> In k ALLOWED_CONFIG_KEYS)
    (Hs : js_get (JObj props) "extractionStrategy" = JStr "custom")
    (Hp : forall p, js_get (JObj props) "customPrompt" = JStr p -> p = "") :
  parseMemoryConfig env (JObj props) = Err CustomPromptRequired.
Proof.
  unfold parseMemoryConfig, assertAllowedKeys. rewrite (unknown_keys_nil props Hk).
  cbn [result_bind]. rewrite Hs. cbn [parseStrategy String.eqb Ascii.eqb Bool.eqb result_bind].
  unfold check_custom_prompt, string_opt.
  destruct (js_get (JObj props) "customPrompt") eqn:E; try reflexivity.
  rewrite (Hp s eq_refl). reflexivity.
Qed.

Lemma X_config_custom_requires_prompt_witness :
  parseMemoryConfig (fun _ => None)
    (JObj [("extractionStrategy", JStr "custom"); ("customPrompt", JStr "")])
  = Err CustomPromptRequired.
Proof.
  apply X_config_custom_requires_prompt.
  - intros k Hk. simpl in Hk. destruct Hk as [Hk | [Hk | []]]; subst; vm_compute; tauto.
  - reflexivity.
  - intros p Hp. simpl in Hp. inversion Hp. reflexivity.
Defined.

(** X5: every config [parseMemoryConfig] accepts came from an object with
    allowed keys only, and has [minScore] in [0, 1], [recallLimit >= 1],
    [summaryTimeWindowDays >= 1], a non-empty [summaryGroupBy], and a
    non-empty [customPrompt] whenever the strategy is "custom". *)
Theorem X_config_accepted_invariants (env : string -> option string) (v : jsval)
    (pc : ParsedConfig) (H : parseMemoryConfig env v = Ok pc) :
  (exists props, v = JObj props /\
     forall k, In k (map fst props) -> In k ALLOWED_CONFIG_KEYS) /\
  0 <= pc_minScore pc <= 1 /\
  (1 <= pc_recallLimit pc)%Z /\
  (1 <= pc_summaryTimeWindowDays pc)%Z /\
  pc_summaryGroupBy pc <> [] /\
  (pc_extractionStrategy pc = Some Custom ->
     exists p, pc_customPrompt pc = Some p /\ p <> "").
Proof.
  destruct (parse_ok_fields env v pc H)
    as (props & Hv & Eu & _ & _ & Hm & Hr & Hw & Hg & _ & Hc).
  split; [exists props; split; [exact Hv | intros k; apply unknown_keys_nil_allowed; exact Eu] |].
  rewrite Hm, Hr, Hw, Hg.
  split; [apply parseMinScore_bounds |].
  split; [apply positive_int_or_ge_one; unfold DEFAULT_RECALL_LIMIT; lia |].
  split; [apply positive_int_or_ge_one; unfold DEFAULT_SUMMARY_TIME_WINDOW_DAYS; lia |].
  split; [apply parseSummaryGroupBy_nonempty |].
  intro Hs. rewrite Hs in Hc. unfold check_custom_prompt, truthy_param in Hc.
  destruct (pc_customPrompt pc) as [p |]; [| discriminate].
  exists p. split; [reflexivity |].
  destruct (String.eqb_spec p ""); [discriminate | assumption].
Qed.

Definition custom_config_value : jsval :=
  JObj [("extractionStrategy", JStr "custom"); ("customPrompt", JStr "Extract facts");
        ("minScore", JNum 2); ("recallLimit", JNum (-4)); ("summaryGroupBy", JArr [JStr "org"])].

Lemma X_config_accepted_invariants_witness :
  exists pc, parseMemoryConfig (fun _ => None) custom_config_value = Ok pc /\
  ((exists props, custom_config_value = JObj props /\
     forall k, In k (map fst props) -> In k ALLOWED_CONFIG_KEYS) /\
   0 <= pc_minScore pc <= 1 /\
   (1 <= pc_recallLimit pc)%Z /\
   (1 <= pc_summaryTimeWindowDays pc)%Z /\
   pc_summaryGroupBy pc <> [] /\
   (pc_extractionStrategy pc = Some Custom ->
      exists p, pc_customPrompt pc = Some p /\ p <> "")).
Proof.
  destruct (parseMemoryConfig (fun _ => None) custom_config_value) as [pc | e] eqn:E;
    [| vm_compute in E; discriminate].
  exists pc. split; [reflexivity |].
  exact (X_config_accepted_invariants (fun _ => None) custom_config_value pc E).
Defined.






(** X8: an accepted config disables [autoRecall] or [autoCapture] only when
    the field is the boolean [false] (absent, [null], [0] or "false" leave it
    on), and a disabled flag leaves its hook without effect: no call, no
    context, no clock or UUID use, [summaryViewId] unchanged. *)
Theorem X_config_flags_gate_hooks (env : string -> option string) (v : jsval)
    (pc : ParsedConfig) (H : parseMemoryConfig env v = Ok pc) :
  (pc_autoRecall pc = false <-> js_get v "autoRecall" = JBool false) /\
  (pc_autoCapture pc = false <-> js_get v "autoCapture" = JBool false) /\
  (js_get v "autoRecall" = JBool false ->
     forall sb be sid prompt, on_before_agent_start pc sb be sid prompt = (None, [], sid)) /\
  (js_get v "autoCapture" = JBool false ->
     forall clock uuid_of toISOString be sb sid success messages sessionKey w,
       on_agent_end clock uuid_of toISOString pc be sb sid success messages sessionKey w
       = ([], w, sid)).
Proof.
  destruct (parse_ok_fields env v pc H) as (props & _ & _ & Hc & Hr & _).
  assert (Hflag : forall x, match x with JBool false => false | _ => true end = false <->
                            x = JBool false)
    by (intro x; destruct x as [| | [] | | | |]; split; intro E; try discriminate; reflexivity).
  split; [rewrite Hr; apply Hflag |].
  split; [rewrite Hc; apply Hflag |].
  split.
  - intros E sb be sid prompt. unfold on_before_agent_start. rewrite Hr, E. reflexivity.
  - intros E clock uuid_of toISOString be sb sid success messages sessionKey w.
    unfold on_agent_end. rewrite Hc, E. reflexivity.
Qed.

Definition recall_off_value : jsval := JObj [("autoRecall", JBool false)].

Lemma X_config_flags_gate_hooks_witness :
  exists pc, parseMemoryConfig (fun _ => None) recall_off_value = Ok pc /\
  ((pc_autoRecall pc = false <-> js_get recall_off_value "autoRecall" = JBool false) /\
   (pc_autoCapture pc = false <-> js_get recall_off_value "autoCapture" = JBool false) /\
   (js_get recall_off_value "autoRecall" = JBool false ->
      forall sb be sid prompt, on_before_agent_start pc sb be sid prompt = (None, [], sid)) /\
   (js_get recall_off_value "autoCapture" = JBool false ->
      forall clock uuid_of toISOString be sb sid success messages sessionKey w,
        on_agent_end clock uuid_of toISOString pc be sb sid success messages sessionKey w
        = ([], w, sid))).
Proof.
  destruct (parseMemoryConfig (fun _ => None) recall_off_value) as [pc | e] eqn:E;
    [| vm_compute in E; discriminate].
  exists pc. split; [reflexivity |].
  exact (X_config_flags_gate_hooks (fun _ => None) recall_off_value pc E).
Defined.

(** ** Environment-variable references *)

Lemma prepend_app : forall a b r, prepend a (prepend b r) = prepend (a ++ b) r.
Proof.
  intros a b [t | e]; simpl; [rewrite string_app_assoc |]; reflexivity.
Qed.

Lemma prepend_cons : forall c r, prepend (String c EmptyString) r =
  match r with Ok t => Ok (String c t) | Err e => Err e end.
Proof. intros c [t | e]; reflexivity. Qed.

(** The text a scanner state stands for when the input ends. *)
Definition scan_pending (st : EnvScan) : string :=
  match st with
  | ScanText => ""
  | ScanDollar => "$"
  | ScanName n => "${" ++ n
  end.

Lemma resolve_scan_no_rbrace : forall env s st,
  (forall i, String.get i s <> Some RBRACE) ->
  resolve_scan env s st = Ok (scan_pending st ++ s).
Proof.
  intros env s. induction s as [| c s IH]; intros st Hs.
  - destruct st; simpl; [reflexivity | reflexivity |]. rewrite string_app_nil_r. reflexivity.
  - assert (Hs' : forall i, String.get i s <> Some RBRACE) by (intro i; exact (Hs (S i))).
    assert (Hc : c <> RBRACE) by (intro E; apply (Hs 0%nat); simpl; rewrite E; reflexivity).
    destruct st as [| | n]; cbn [resolve_scan].
    + destruct (Ascii.eqb_spec c DOLLAR) as [E | E].
      * rewrite (IH ScanDollar Hs'). subst. reflexivity.
      * rewrite (IH ScanText Hs'). reflexivity.
    + destruct (Ascii.eqb_spec c LBRACE) as [E | E].
      * rewrite (IH (ScanName "") Hs'). subst. reflexivity.
      * destruct (Ascii.eqb_spec c DOLLAR) as [E' | E'].
        -- rewrite (IH ScanDollar Hs'). subst. reflexivity.
        -- rewrite (IH ScanText Hs'). reflexivity.
    + destruct (Ascii.eqb_spec c RBRACE) as [E | E]; [contradiction |].
      rewrite (IH (ScanName (n ++ String c EmptyString)) Hs'). cbn [scan_pending].
      rewrite !string_app_assoc. reflexivity.
Qed.

Lemma resolve_scan_no_dollar : forall env s,
  (forall i, String.get i s <> Some DOLLAR) -> resolve_scan env s ScanText = Ok s.
Proof.
  intros env s. induction s as [| c s IH]; intro Hs; [reflexivity |].
  assert (Hs' : forall i, String.get i s <> Some DOLLAR) by (intro i; exact (Hs (S i))).
  assert (Hc : c <> DOLLAR) by (intro E; apply (Hs 0%nat); simpl; rewrite E; reflexivity).
  cbn [resolve_scan]. destruct (Ascii.eqb_spec c DOLLAR) as [E | E]; [contradiction |].
  rewrite (IH Hs'). reflexivity.
Qed.

(** X9: [resolveEnvVars] returns its argument unchanged, without reading the
    environment, when the string has no [$] or no [}]: in particular [${}]
    and an unclosed [${NAME] stay literal. *)
Theorem X_resolveEnvVars_no_reference (env : string -> option string) (s : string)
    (H : (forall i, String.get i s <> Some DOLLAR) \/ (forall i, String.get i s <> Some RBRACE)) :
  resolveEnvVars env s = Ok s.
Proof.
  unfold resolveEnvVars. destruct H as [H | H].
  - apply resolve_scan_no_dollar. exact H.
  - exact (resolve_scan_no_rbrace env s ScanText H).
Qed.

Lemma X_resolveEnvVars_no_reference_witness :
  ((forall i, String.get i "http://${AGENT_MEMORY_SERVER_URL" <> Some DOLLAR) \/
   (forall i, String.get i "http://${AGENT_MEMORY_SERVER_URL" <> Some RBRACE)) /\
  resolveEnvVars (fun _ => Some "x") "http://${AGENT_MEMORY_SERVER_URL"
  = Ok "http://${AGENT_MEMORY_SERVER_URL".
Proof.
  assert (H : forall i, String.get i "http://${AGENT_MEMORY_SERVER_URL" <> Some RBRACE).
  { intro i. do 40 (destruct i as [| i]; [simpl; discriminate |]). simpl. discriminate. }
  split; [right; exact H |].
  apply X_resolveEnvVars_no_reference. right. exact H.
Defined.

Lemma resolve_scan_text_prefix : forall env a t,
  (forall i, String.get i a <> Some DOLLAR) ->
  resolve_scan env (a ++ t) ScanText = prepend a (resolve_scan env t ScanText).
Proof.
  intros env a t. induction a as [| c a IH]; intro Ha.
 - cbn [append]. destruct (resolve_scan env t ScanText); reflexivity.
  - assert (Ha' : forall i, String.get i a <> Some DOLLAR) by (intro i; exact (Ha (S i))).
    assert (Hc : c <> DOLLAR) by (intro E; apply (Ha 0%nat); simpl; rewrite E; reflexivity).
    cbn [append resolve_scan]. destruct (Ascii.eqb_spec c DOLLAR) as [E | E]; [contradiction |].
    rewrite (IH Ha'). destruct (resolve_scan env t ScanText); reflexivity.
Qed.

Lemma resolve_scan_name_prefix : forall env n t m,
  (forall i, String.get i n <> Some RBRACE) ->
  resolve_scan env (n ++ t) (ScanName m) = resolve_scan env t (ScanName (m ++ n)).
Proof.
  intros env n t. induction n as [| c n IH]; intros m Hn.
  - rewrite string_app_nil_r. reflexivity.
  - assert (Hn' : forall i, String.get i n <> Some RBRACE) by (intro i; exact (Hn (S i))).
    assert (Hc : c <> RBRACE) by (intro E; apply (Hn 0%nat); simpl; rewrite E; reflexivity).
    cbn [append resolve_scan]. destruct (Ascii.eqb_spec c RBRACE) as [E | E]; [contradiction |].
    rewrite (IH _ Hn'). rewrite string_app_assoc. reflexivity.
Qed.

(** X10: for [a ++ "${" ++ n ++ "}" ++ b] where [a] has no [$] and the name
    [n] is non-empty with no [}], [resolveEnvVars] replaces the reference by
    the variable's value when it is set and non-empty, without rescanning
    that value, and continues with [b]; when the variable is unset or empty
    it fails with [EnvVarNotSet n]. *)
Theorem X_resolveEnvVars_substitutes (env : string -> option string) (a n b : string)
    (Ha : forall i, String.get i a <> Some DOLLAR)
    (Hn : n <> "") (Hn' : forall i, String.get i n <> Some RBRACE) :
  (forall v, env n = Some v -> v <> "" ->
     resolveEnvVars env (a ++ "${" ++ n ++ "}" ++ b)
     = match resolveEnvVars env b with Ok r => Ok (a ++ v ++ r) | Err e => Err e end) /\
  ((env n = None \/ env n = Some "") ->
     resolveEnvVars env (a ++ "${" ++ n ++ "}" ++ b) = Err (EnvVarNotSet n)).
Proof.
  assert (Hstep : resolveEnvVars env (a ++ "${" ++ n ++ "}" ++ b)
                  = prepend a (if String.eqb n "" then prepend "${}" (resolve_scan env b ScanText)
                               else match env n with
                                    | Some v => if String.eqb v "" then Err (EnvVarNotSet n)
                                                else prepend v (resolve_scan env b ScanText)
                                    | None => Err (EnvVarNotSet n)
                                    end)).
  { unfold resolveEnvVars. rewrite (resolve_scan_text_prefix env a _ Ha).
    f_equal. cbn [append resolve_scan Ascii.eqb DOLLAR LBRACE Bool.eqb].
    rewrite (resolve_scan_name_prefix env n _ "" Hn'). reflexivity. }
  apply String.eqb_neq in Hn. rewrite Hstep, Hn. unfold resolveEnvVars. split.
  - intros v Hv Hv'. apply String.eqb_neq in Hv'. rewrite Hv, Hv'.
    destruct (resolve_scan env b ScanText); simpl; reflexivity.
  - intros [E | E]; rewrite E; reflexivity.
Qed.

Definition url_env (name : string) : option string :=
  if String.eqb name "AGENT_MEMORY_SERVER_URL" then Some "http://memory:8000" else None.

Lemma X_resolveEnvVars_substitutes_witness :
  resolveEnvVars url_env ("" ++ "${" ++ "AGENT_MEMORY_SERVER_URL" ++ "}" ++ "/v1")
  = Ok ("" ++ "http://memory:8000" ++ "/v1") /\
  resolveEnvVars url_env ("key-" ++ "${" ++ "API_KEY" ++ "}" ++ "")
  = Err (EnvVarNotSet "API_KEY").
Proof.
  split.
  - rewrite (proj1 (X_resolveEnvVars_substitutes url_env "" "AGENT_MEMORY_SERVER_URL" "/v1"
                      ltac:(intros [| i]; discriminate) ltac:(discriminate)
                      ltac:(intro i; do 30 (destruct i as [| i]; [simpl; discriminate |]);
                            simpl; discriminate)) "http://memory:8000" eq_refl ltac:(discriminate)).
    reflexivity.
  - apply (proj2 (X_resolveEnvVars_substitutes url_env "key-" "API_KEY" ""
                    ltac:(intro i; do 5 (destruct i as [| i]; [simpl; discriminate |]);
                          simpl; discriminate) ltac:(discriminate)
                    ltac:(intro i; do 8 (destruct i as [| i]; [simpl; discriminate |]);
                          simpl; discriminate))).
    left. reflexivity.
Defined.

(** ** Tools and hooks with a parsed configuration *)

Lemma score_at_least : forall m d, dist_or_zero d <= 1 - m -> m <= score_of d.
Proof.
  intros m d H. unfold score_of. apply Qle_trans with (1 - dist_or_zero d); [lra | apply Q.le_max_r].
Qed.

(** X11: with a parsed config, [memory_recall] keeps a search hit exactly
    when its score reaches [minScore]: every memory it returns scores at
    least [minScore], and no hit scoring at least [minScore] is dropped. *)
Theorem X_recall_min_score_filter (pc : ParsedConfig) (be : Backend) (query : string)
    (limit : option Z) (ms : list MemoryRecord)
    (Hs : be_search be (search_request (to_memory_config pc) query
                          (match limit with Some l => l | None => 5%Z end) None) = Some ms) :
  (forall rs, fst (memory_recall (to_memory_config pc) be query limit) = RecallFound rs ->
     Forall (fun r => pc_minScore pc <= sm_score r) rs) /\
  (forall m, In m ms -> pc_minScore pc <= score_of (mr_dist m) ->
     exists rs, fst (memory_recall (to_memory_config pc) be query limit) = RecallFound rs /\
                In (to_scored m) rs).
Proof.
  unfold memory_recall. rewrite Hs.
  assert (Hf : forall r, In r (filter (passes_min_score (cfg_minScore (to_memory_config pc)))
                                      (map to_scored ms)) <->
                         In r (map to_scored ms) /\ pc_minScore pc <= sm_score r).
  { intro r. rewrite filter_In. cbn [to_memory_config cfg_minScore passes_min_score].
    rewrite Qle_bool_iff. tauto. }
  split.
  - intros rs E. destruct ms as [| m0 ms0]; [discriminate |].
    destruct (filter _ _) as [| r0 rs0] eqn:Ef; cbn [fst] in E; [discriminate |].
    inversion E; subst. apply Forall_forall. intros r Hr.
    apply Hf in Hr. exact (proj2 Hr).
  - intros m Hm Hsc. destruct ms as [| m0 ms0]; [destruct Hm |].
    assert (Hin : In (to_scored m) (filter (passes_min_score (cfg_minScore (to_memory_config pc)))
                                           (map to_scored (m0 :: ms0)))).
    { apply Hf. split; [apply in_map; exact Hm | exact Hsc]. }
    destruct (filter _ _) as [| r0 rs0] eqn:Ef; [destruct Hin |].
    exists (r0 :: rs0). split; [reflexivity | exact Hin].
Qed.

Definition sample_parsed_config : ParsedConfig :=
  match parseMemoryConfig (fun _ => None) (JObj [("minScore", JNum (1 # 2))]) with
  | Ok pc => pc
  | Err _ => mkParsedConfig "" None None "" None None 0 true true 0 1 None None "" 1 [] "" "" ""
  end.

Definition two_hits : list MemoryRecord :=
  [mkMemoryRecord "m-1" "likes tea" (DistNum (1 # 10));
   mkMemoryRecord "m-2" "owns a cat" (DistNum (8 # 10))].

Lemma X_recall_min_score_filter_witness :
  (forall rs, fst (memory_recall (to_memory_config sample_parsed_config)
                     (backend_returning two_hits) "tea" None) = RecallFound rs ->
     Forall (fun r => pc_minScore sample_parsed_config <= sm_score r) rs) /\
  (forall m, In m two_hits -> pc_minScore sample_parsed_config <= score_of (mr_dist m) ->
     exists rs, fst (memory_recall (to_memory_config sample_parsed_config)
                       (backend_returning two_hits) "tea" None) = RecallFound rs /\
                In (to_scored m) rs).
Proof.
  apply X_recall_min_score_filter. reflexivity.
Defined.

(** X12: the query-specific search of [before_agent_start] is sent with
    [limit = recallLimit] and [distanceThreshold = 1 - minScore]; when the
    server honours that threshold (every hit's distance, [null] or absent
    read as 0, is at most [1 - minScore]), the client-side [minScore] filter
    keeps every hit, so all of them are injected, in order. *)
Theorem X_hook_threshold_matches_filter (pc : ParsedConfig) (be : Backend) (p : string)
    (ms : list MemoryRecord)
    (Hp : (5 <= String.length p)%nat)
    (Hq : (5 <= String.length (stripEnvelopeForSearch p))%nat)
    (Hs : be_search be (search_request (to_memory_config pc) (stripEnvelopeForSearch p)
                          (pc_recallLimit pc) (Some (1 - pc_minScore pc))) = Some ms)
    (Hne : ms <> [])
    (Hd : Forall (fun m => dist_or_zero (mr_dist m) <= 1 - pc_minScore pc) ms) :
  before_agent_start_search (to_memory_config pc) be (Some p)
  = (Some (map to_scored ms),
     [ReqSearch (search_request (to_memory_config pc) (stripEnvelopeForSearch p)
                   (pc_recallLimit pc) (Some (1 - pc_minScore pc)))]).
Proof.
  unfold before_agent_start_search.
  rewrite (proj2 (Nat.ltb_ge _ _) Hp), (proj2 (Nat.ltb_ge _ _) Hq).
  assert (Hne' : String.eqb (stripEnvelopeForSearch p) "" = false).
  { apply String.eqb_neq. intro E. rewrite E in Hq. simpl in Hq. lia. }
  rewrite Hne'. cbn [orb to_memory_config cfg_minScore cfg_recallLimit].
  rewrite Hs. destruct ms as [| m0 ms0]; [contradiction Hne; reflexivity |].
  rewrite filter_all_true.
  - reflexivity.
  - apply Forall_map. eapply Forall_impl; [| exact Hd].
    intros m Hm. cbn [hook_passes to_scored sm_score]. apply Qle_bool_iff.
    apply score_at_least. exact Hm.
Qed.

Definition recall_prompt : string := "What do I like to drink?".

Definition near_hits : list MemoryRecord :=
  [mkMemoryRecord "m-1" "likes tea" (DistNum (1 # 10));
   mkMemoryRecord "m-2" "drinks coffee" DistNull].

Lemma X_hook_threshold_matches_filter_witness :
  before_agent_start_search (to_memory_config sample_parsed_config)
    (backend_returning near_hits) (Some recall_prompt)
  = (Some (map to_scored near_hits),
     [ReqSearch (search_request (to_memory_config sample_parsed_config)
                   (stripEnvelopeForSearch recall_prompt)
                   (pc_recallLimit sample_parsed_config)
                   (Some (1 - pc_minScore sample_parsed_config)))]).
Proof.
  apply X_hook_threshold_matches_filter.
  - vm_compute. lia.
  - vm_compute. lia.
  - reflexivity.
  - discriminate.
  - repeat constructor; vm_compute; discriminate.
Defined.

(** X15: without a [memoryId], [memory_forget] deletes at most one memory,
    and only the single hit of a search for the (non-empty) query, when that
    search returns exactly one hit and its score is above 0.9. *)
Theorem X_forget_query_deletes_only_sole_hit (cfg : MemoryConfig) (be : Backend)
    (query : option string) (o : ForgetOutcome) (reqs : list request) (id : string)
    (H : memory_forget cfg be query None = (o, reqs)) (Hin : In (ReqDelete id) reqs) :
  exists q m, query = Some q /\ q <> "" /\
    be_search be (search_request cfg q 5 None) = Some [m] /\
    mr_id m = id /\ 9 # 10 < score_of (mr_dist m) /\
    reqs = [ReqSearch (search_request cfg q 5 None); ReqDelete id].
Proof.
  unfold memory_forget in H. cbn [truthy_param] in H.
  destruct query as [q |]; [| inversion H; subst; destruct Hin].
  unfold truthy_param in H. destruct (String.eqb_spec q "") as [Eq | Eq];
    [inversion H; subst; destruct Hin |].
  unfold forget_by_query in H.
  destruct (be_search be (search_request cfg q 5 None)) as [ms |] eqn:Es;
    [| inversion H; subst; destruct Hin as [E | []]; discriminate].
  destruct ms as [| m [| m1 ms1]]; cbn [map] in H;
    [inversion H; subst; destruct Hin as [E | []]; discriminate | |
     inversion H; subst; destruct Hin as [E | []]; discriminate].
  destruct (qltb AUTO_DELETE_SCORE (sm_score (to_scored m))) eqn:Eq';
    [| inversion H; subst; destruct Hin as [E | []]; discriminate].
  unfold delete_memory in H. cbn [sm_id to_scored] in H.
  assert (Hid : mr_id m = id /\ reqs = [ReqSearch (search_request cfg q 5 None); ReqDelete (mr_id m)]).
  { destruct (be_delete be (mr_id m)); inversion H; subst;
      (destruct Hin as [E | [E | []]]; [discriminate | inversion E; split; reflexivity]). }
  destruct Hid as [Hid Hr]. subst id.
  exists q, m. repeat split; try assumption; try reflexivity.
  apply qltb_true_iff in Eq'. exact Eq'.
Qed.

Definition forget_record : MemoryRecord := mkMemoryRecord "m-7" "prefers dark mode" (DistNum (1 # 20)).

Lemma X_forget_query_deletes_only_sole_hit_witness :
  exists q m, Some "dark mode" = Some q /\ q <> "" /\
    be_search (backend_returning [forget_record]) (search_request cfg_with_session_override q 5 None)
      = Some [m] /\
    mr_id m = "m-7" /\ 9 # 10 < score_of (mr_dist m) /\
    snd (memory_forget cfg_with_session_override (backend_returning [forget_record])
           (Some "dark mode") None)
    = [ReqSearch (search_request cfg_with_session_override q 5 None); ReqDelete "m-7"].
Proof.
  apply (X_forget_query_deletes_only_sole_hit cfg_with_session_override
           (backend_returning [forget_record]) (Some "dark mode")
           (fst (memory_forget cfg_with_session_override (backend_returning [forget_record])
                   (Some "dark mode") None))).
  - reflexivity.
  - vm_compute. right. left. reflexivity.
Defined.

(** ** Auto-capture *)

(** X16: the [agent_end] capture issues nothing and uses neither clock nor
    UUIDs when the run failed or there are no messages; otherwise it issues
    at most one request, a working-memory write of a non-empty list of
    messages that all pass the normalizer's filter (role user or assistant,
    non-blank content, no [<relevant-memories>] marker). *)
Theorem X_agent_end_at_most_one_write (clock : nat -> Z) (uuid_of : nat -> string)
    (toISOString : Z -> string) (cfg : MemoryConfig) (be : Backend) (success : bool)
    (messages : option (list jsval)) (sessionKey : option string) (w : World) :
  ((success = false \/ messages = None \/ messages = Some []) ->
     agent_end clock uuid_of toISOString cfg be success messages sessionKey w = ([], w)) /\
  (fst (agent_end clock uuid_of toISOString cfg be success messages sessionKey w) = [] \/
   exists sid mms,
     fst (agent_end clock uuid_of toISOString cfg be success messages sessionKey w)
       = [ReqPutWorkingMemory sid mms] /\ mms <> [] /\ Forall canonical mms).
Proof.
  split.
  - intros [-> | [-> | ->]].
    + destruct messages as [[|] |]; reflexivity.
    + reflexivity.
    + reflexivity.
  - unfold agent_end. destruct messages as [[| m ms] |]; [left; reflexivity | | left; reflexivity].
    destruct success; [| left; reflexivity]. cbn [negb].
    destruct (capture_session_id clock sessionKey w) as [sid w1].
    pose proof (convert_canonical clock uuid_of toISOString (m :: ms) w1) as Hc.
    destruct (convertToMemoryMessages clock uuid_of toISOString (m :: ms) w1) as [mms w2].
    cbn [fst] in Hc. destruct mms as [| mm mms']; [left; reflexivity |].
    right. exists sid, (mm :: mms'). split; [reflexivity | split; [discriminate | exact Hc]].
Qed.

Lemma convert_turn_world : forall clock uuid_of toISOString msg w m w1,
  convert_turn clock uuid_of toISOString msg w = Some (m, w1) ->
  w_ticks w1 = S (w_ticks w) /\
  (w_uuids w1 = w_uuids w \/ w_uuids w1 = S (w_uuids w)) /\
  ((exists s, js_get msg "id" = JStr s) -> w_uuids w1 = w_uuids w).
Proof.
  intros clock uuid_of toISOString msg w m w1 H. unfold convert_turn in H.
  destruct (negb (truthy msg) || negb (is_object msg)); [discriminate |].
  destruct (js_get msg "role"); try discriminate.
  destruct (negb _); [discriminate |].
  destruct (String.eqb _ _); [discriminate |].
  destruct (includes _ _); [discriminate |].
  destruct (js_get msg "id") eqn:Ei; cbn in H; inversion H; subst; cbn;
    (split; [reflexivity |]);
    first [ split; [left; reflexivity | intros _; reflexivity]
          | split; [right; reflexivity | intros [? E]; discriminate E] ].
Qed.

(** X17: [convertToMemoryMessages] reads the clock exactly once per emitted
    message and draws at most one UUID per emitted message (none for a
    dropped turn, none when every turn has a string id); it never emits more
    messages than it is given. *)
Theorem X_normalizer_world_accounting (clock : nat -> Z) (uuid_of : nat -> string)
    (toISOString : Z -> string) (msgs : list jsval) (w : World) :
  let '(out, w') := convertToMemoryMessages clock uuid_of toISOString msgs w in
  w_ticks w' = (w_ticks w + List.length out)%nat /\
  (w_uuids w <= w_uuids w' <= w_uuids w + List.length out)%nat /\
  ((Forall (fun msg => exists s, js_get msg "id" = JStr s) msgs) -> w_uuids w' = w_uuids w) /\
  (List.length out <= List.length msgs)%nat.
Proof.
  revert w. induction msgs as [| msg rest IH]; intro w; cbn [convertToMemoryMessages].
  - cbn. repeat split; try lia. 
  - destruct (convert_turn clock uuid_of toISOString msg w) as [[m w1] |] eqn:Et.
    + apply convert_turn_world in Et. destruct Et as (Ht & Hu & Hid).
      specialize (IH w1).
      destruct (convertToMemoryMessages clock uuid_of toISOString rest w1) as [out w2].
      destruct IH as (IHt & IHu & IHid & IHl). cbn [List.length].
      split; [lia |]. split; [destruct Hu; lia |]. split; [| lia].
      intro Hall. inversion Hall; subst. rewrite IHid by assumption. apply Hid. assumption.
    + specialize (IH w).
      destruct (convertToMemoryMessages clock uuid_of toISOString rest w) as [out w2].
      destruct IH as (IHt & IHu & IHid & IHl). cbn [List.length].
      split; [lia |]. split; [lia |]. split; [| lia].
      intro Hall. inversion Hall; subst. apply IHid. assumption.
Qed.

(** ** Summary views *)

Lemma find_first : forall {A} (f : A -> bool) pre x post,
  Forall (fun y => f y = false) pre -> f x = true -> find f (app pre (x :: post)) = Some x.
Proof.
  intros A f pre x post Hpre Hx. induction Hpre as [| y pre' Hy _ IH]; simpl.
  - rewrite Hx. reflexivity.
  - rewrite Hy. exact IH.
Qed.

Lemma find_none : forall {A} (f : A -> bool) l,
  Forall (fun y => f y = false) l -> find f l = None.
Proof.
  intros A f l H. induction H as [| y l' Hy _ IH]; simpl; [reflexivity |].
  rewrite Hy. exact IH.
Qed.

(** X18: when the listed views contain one named [summaryViewName],
    [ensureSummaryView] returns the id of the first such view and creates
    nothing. *)
Theorem X_ensure_view_adopts_existing (pc : ParsedConfig) (sb : SummaryBackend)
    (pre : list SummaryView) (v : SummaryView) (post : list SummaryView)
    (Hl : sb_listViews sb = Some (app pre (v :: post)))
    (Hpre : Forall (fun x => sv_name x <> pc_summaryViewName pc) pre)
    (Hv : sv_name v = pc_summaryViewName pc) :
  ensureSummaryView pc sb = (Some (sv_id v), [ReqListViews]).
Proof.
  unfold ensureSummaryView. rewrite Hl. rewrite find_first; [reflexivity | |].
  - eapply Forall_impl; [| exact Hpre]. intros x Hx. apply String.eqb_neq. exact Hx.
  - apply String.eqb_eq. exact Hv.
Qed.

Definition view_backend (views : list SummaryView) : SummaryBackend :=
  mkSummaryBackend (Some views) (fun _ => Some "view-new") (fun _ _ _ => ViewOk [])
    (fun _ => ViewOk tt) true.

Lemma X_ensure_view_adopts_existing_witness :
  ensureSummaryView sample_parsed_config
    (view_backend [mkSummaryView "v-1" "team_summary"; mkSummaryView "v-2" "agent_user_summary";
                   mkSummaryView "v-3" "agent_user_summary"])
  = (Some "v-2", [ReqListViews]).
Proof.
  apply (X_ensure_view_adopts_existing sample_parsed_config _
           [mkSummaryView "v-1" "team_summary"] (mkSummaryView "v-2" "agent_user_summary")
           [mkSummaryView "v-3" "agent_user_summary"]).
  - reflexivity.
  - constructor; [vm_compute; discriminate | constructor].
  - reflexivity.
Defined.

(** X19: when no listed view has the configured name, [ensureSummaryView]
    issues exactly one [createSummaryView], for a non-continuous
    "long_term" view with the configured name, [summaryGroupBy] and time
    window, filtered by namespace only when the namespace is non-empty, and
    returns the new id, or [null] when the creation throws. *)
Theorem X_ensure_view_creates_once (pc : ParsedConfig) (sb : SummaryBackend)
    (views : list SummaryView)
    (Hl : sb_listViews sb = Some views)
    (Hn : Forall (fun x => sv_name x <> pc_summaryViewName pc) views) :
  exists spec,
    ensureSummaryView pc sb = (sb_createView sb spec, [ReqListViews; ReqCreateView spec]) /\
    vs_name spec = pc_summaryViewName pc /\ vs_source spec = "long_term" /\
    vs_group_by spec = pc_summaryGroupBy pc /\
    vs_filters spec = (if String.eqb (pc_namespace pc) "" then None else Some (pc_namespace pc)) /\
    vs_time_window_days spec = pc_summaryTimeWindowDays pc /\ vs_continuous spec = false.
Proof.
  exists (summary_view_spec pc). unfold ensureSummaryView. rewrite Hl, find_none.
  - split; [destruct (sb_createView sb (summary_view_spec pc)); reflexivity |].
    repeat split; reflexivity.
  - eapply Forall_impl; [| exact Hn]. intros x Hx. apply String.eqb_neq. exact Hx.
Qed.

Lemma X_ensure_view_creates_once_witness :
  exists spec,
    ensureSummaryView sample_parsed_config (view_backend [mkSummaryView "v-1" "team_summary"])
    = (Some "view-new", [ReqListViews; ReqCreateView spec]) /\
    vs_name spec = pc_summaryViewName sample_parsed_config /\ vs_source spec = "long_term" /\
    vs_group_by spec = pc_summaryGroupBy sample_parsed_config /\
    vs_filters spec = (if String.eqb (pc_namespace sample_parsed_config) "" then None
                       else Some (pc_namespace sample_parsed_config)) /\
    vs_time_window_days spec = pc_summaryTimeWindowDays sample_parsed_config /\
    vs_continuous spec = false.
Proof.
  apply (X_ensure_view_creates_once sample_parsed_config
           (view_backend [mkSummaryView "v-1" "team_summary"]) [mkSummaryView "v-1" "team_summary"]).
  - reflexivity.
  - constructor; [vm_compute; discriminate | constructor].
Defined.

(** X20: the summary step of [before_agent_start] uses the first listed
    partition whose group matches the configured user id and namespace on
    every [summaryGroupBy] field, even when an earlier or later partition has
    a summary: it injects that partition's summary block only when its
    summary is non-empty and its [memory_count] is positive. When no
    partition matches, the first partition is used. *)
Theorem X_summary_uses_first_matching_partition (pc : ParsedConfig) (sb : SummaryBackend)
    (id : string) (ps : list Partition) (Hid : id <> "")
    (Hl : sb_listPartitions sb id (Some (pc_namespace pc)) (pc_userId pc) = ViewOk ps) :
  (forall pre p post, ps = app pre (p :: post) ->
     Forall (fun x => partition_matches pc x = false) pre -> partition_matches pc p = true ->
     summary_step pc sb (Some id)
     = (match pt_summary p with
        | Some s => if String.eqb s "" then None
                    else if Z.ltb 0 (pt_memory_count p) then Some (user_summary_block p s) else None
        | None => None
        end,
        [ReqListPartitions id (Some (pc_namespace pc)) (pc_userId pc)], Some id)) /\
  (Forall (fun x => partition_matches pc x = false) ps ->
     summary_step pc sb (Some id)
     = (summary_part (hd_error ps),
        [ReqListPartitions id (Some (pc_namespace pc)) (pc_userId pc)], Some id)).
Proof.
  unfold summary_step, truthy_param. apply String.eqb_neq in Hid. rewrite Hid, Hl.
  split.
  - intros pre p post -> Hpre Hp. unfold select_partition. rewrite find_first by assumption.
    reflexivity.
  - intro Hn. unfold select_partition. rewrite find_none by assumption. reflexivity.
Qed.

Definition user_partition (u : string) (summary : option string) (count : Z) : Partition :=
  mkPartition (JStr u) (JStr "default") summary count None.

Definition partitions_backend (ps : list Partition) : SummaryBackend :=
  mkSummaryBackend None (fun _ => None) (fun _ _ _ => ViewOk ps) (fun _ => ViewOk tt) true.

Definition alice_config : ParsedConfig :=
  match parseMemoryConfig (fun _ => None) (JObj [("userId", JStr "alice")]) with
  | Ok pc => pc
  | Err _ => sample_parsed_config
  end.

Lemma X_summary_uses_first_matching_partition_witness :
  summary_step alice_config
    (partitions_backend [user_partition "bob" (Some "Bob likes jazz") 4;
                         user_partition "alice" (Some "") 2])
    (Some "view-1")
  = (None, [ReqListPartitions "view-1" (Some (pc_namespace alice_config)) (pc_userId alice_config)],
     Some "view-1").
Proof.
  refine (proj1 (X_summary_uses_first_matching_partition alice_config
                   (partitions_backend [user_partition "bob" (Some "Bob likes jazz") 4;
                                        user_partition "alice" (Some "") 2])
                   "view-1" _ ltac:(discriminate) eq_refl)
            [user_partition "bob" (Some "Bob likes jazz") 4] (user_partition "alice" (Some "") 2)
            [] eq_refl _ _).
  - constructor; [reflexivity | constructor].
  - reflexivity.
Defined.

(** ** The full before_agent_start hook *)

Definition failing_views : SummaryBackend :=
  mkSummaryBackend None (fun _ => None) (fun _ _ _ => ViewError) (fun _ => ViewError) false.

(** X22: without a summary view id ([null] or empty), [before_agent_start]
    makes no summary-view call and leaves the id unchanged; its context is
    exactly the [<relevant-memories query-specific="true">] block of the
    memories the query-specific search finds, or nothing. *)
Theorem X_hook_without_view_only_searches (pc : ParsedConfig) (sb : SummaryBackend)
    (be : Backend) (sid : option string) (p : string)
    (Hsid : sid = None \/ sid = Some "") (Hp : (5 <= String.length p)%nat) :
  before_agent_start pc sb be sid (Some p)
  = (option_map relevant_block (fst (before_agent_start_search (to_memory_config pc) be (Some p))),
     map CallMem (snd (before_agent_start_search (to_memory_config pc) be (Some p))), sid).
Proof.
  unfold before_agent_start. rewrite (proj2 (Nat.ltb_ge _ _) Hp).
  assert (Hs : summary_step pc sb sid = (None, [], sid))
    by (destruct Hsid as [-> | ->]; reflexivity).
  rewrite Hs.
  destruct (before_agent_start_search (to_memory_config pc) be (Some p)) as [[ms |] reqs];
    reflexivity.
Qed.

Lemma X_hook_without_view_only_searches_witness :
  before_agent_start sample_parsed_config failing_views (backend_returning near_hits) None
    (Some recall_prompt)
  = (option_map relevant_block (fst (before_agent_start_search
        (to_memory_config sample_parsed_config) (backend_returning near_hits) (Some recall_prompt))),
     map CallMem (snd (before_agent_start_search
        (to_memory_config sample_parsed_config) (backend_returning near_hits) (Some recall_prompt))),
     None).
Proof.
  apply X_hook_without_view_only_searches; [left; reflexivity | vm_compute; lia].
Defined.

(** X23: when both steps produce a block, the context of
    [before_agent_start] is the summary block, a blank line, then the
    relevant-memories block; the summary-view calls come before the search.
    With a summary block and no memories, the context is the summary block
    alone. *)
Theorem X_hook_summary_then_memories (pc : ParsedConfig) (sb : SummaryBackend) (be : Backend)
    (sid : option string) (p s : string) (vreqs : list view_request) (sid1 : option string)
    (Hp : (5 <= String.length p)%nat)
    (Hsum : summary_step pc sb sid = (Some s, vreqs, sid1)) :
  (forall ms reqs, before_agent_start_search (to_memory_config pc) be (Some p) = (Some ms, reqs) ->
     before_agent_start pc sb be sid (Some p)
     = (Some (s ++ NLS ++ NLS ++ relevant_block ms),
        app (map CallView vreqs) (map CallMem reqs), sid1)) /\
  (forall reqs, before_agent_start_search (to_memory_config pc) be (Some p) = (None, reqs) ->
     before_agent_start pc sb be sid (Some p)
     = (Some s, app (map CallView vreqs) (map CallMem reqs), sid1)).
Proof.
  unfold before_agent_start. rewrite (proj2 (Nat.ltb_ge _ _) Hp), Hsum.
  split; intros; rewrite H; reflexivity.
Qed.

Definition summary_partition : Partition :=
  mkPartition (JStr "alice") (JStr "default") (Some "Alice drinks green tea.") 3
    (Some "2026-10-01T00:00:00Z").

Lemma X_hook_summary_then_memories_witness :
  before_agent_start alice_config (partitions_backend [summary_partition])
    (backend_returning near_hits) (Some "view-1") (Some recall_prompt)
  = (Some (user_summary_block summary_partition "Alice drinks green tea." ++ NLS ++ NLS
           ++ relevant_block (map to_scored near_hits)),
     app (map CallView [ReqListPartitions "view-1" (Some (pc_namespace alice_config))
                          (pc_userId alice_config)])
         (map CallMem [ReqSearch (search_request (to_memory_config alice_config)
                                   (stripEnvelopeForSearch recall_prompt)
                                   (pc_recallLimit alice_config)
                                   (Some (1 - pc_minScore alice_config)))]),
     Some "view-1").
Proof.
  apply (proj1 (X_hook_summary_then_memories alice_config (partitions_backend [summary_partition])
                  (backend_returning near_hits) (Some "view-1") recall_prompt
                  (user_summary_block summary_partition "Alice drinks green tea.") _ (Some "view-1")
                  ltac:(vm_compute; lia) eq_refl)).
  vm_compute. reflexivity.
Defined.

(** X24: when listing the partitions throws [MemoryNotFoundError],
    [before_agent_start] re-runs [ensureSummaryView] and keeps its result as
    the new [summaryViewId]; any other error keeps the old id. In both cases
    no summary is injected and the query-specific search still runs. *)
Theorem X_hook_view_not_found_recreates (pc : ParsedConfig) (sb : SummaryBackend) (be : Backend)
    (id p : string) (Hid : id <> "") (Hp : (5 <= String.length p)%nat) :
  let req := ReqListPartitions id (Some (pc_namespace pc)) (pc_userId pc) in
  let search := before_agent_start_search (to_memory_config pc) be (Some p) in
  (sb_listPartitions sb id (Some (pc_namespace pc)) (pc_userId pc) = ViewNotFound ->
     before_agent_start pc sb be (Some id) (Some p)
     = (option_map relevant_block (fst search),
        app (map CallView (req :: snd (ensureSummaryView pc sb))) (map CallMem (snd search)),
        fst (ensureSummaryView pc sb))) /\
  (sb_listPartitions sb id (Some (pc_namespace pc)) (pc_userId pc) = ViewError ->
     before_agent_start pc sb be (Some id) (Some p)
     = (option_map relevant_block (fst search),
        app (map CallView [req]) (map CallMem (snd search)), Some id)).
Proof.
  cbv zeta. unfold before_agent_start. rewrite (proj2 (Nat.ltb_ge _ _) Hp).
  unfold summary_step, truthy_param. apply String.eqb_neq in Hid. rewrite Hid.
  split; intro E; rewrite E.
  - destruct (ensureSummaryView pc sb) as [sid' reqs'].
    destruct (before_agent_start_search (to_memory_config pc) be (Some p)) as [[ms |] reqs];
      reflexivity.
  - destruct (before_agent_start_search (to_memory_config pc) be (Some p)) as [[ms |] reqs];
      reflexivity.
Qed.

Definition recreating_views : SummaryBackend :=
  mkSummaryBackend (Some []) (fun _ => Some "view-2") (fun _ _ _ => ViewNotFound)
    (fun _ => ViewNotFound) true.

Lemma X_hook_view_not_found_recreates_witness :
  snd (before_agent_start sample_parsed_config recreating_views (backend_returning near_hits)
         (Some "view-1") (Some recall_prompt)) = Some "view-2".
Proof.
  rewrite (proj1 (X_hook_view_not_found_recreates sample_parsed_config recreating_views
                    (backend_returning near_hits) "view-1" recall_prompt
                    ltac:(discriminate) ltac:(vm_compute; lia)) eq_refl).
  reflexivity.
Defined.

(** ** The injected block and the capture filter *)

Lemma starts_with_app_nl : forall sub a b,
  has_nl sub = false -> starts_with sub (a ++ String NL b) = true -> starts_with sub a = true.
Proof.
  induction sub as [| c p IH]; intros a b Hn Hs; [reflexivity |].
  destruct a as [| d a'].
  - cbn [append starts_with] in Hs. apply andb_true_iff in Hs. destruct Hs as [Hc _].
    apply Ascii.eqb_eq in Hc. subst c. cbn [has_nl] in Hn.
    rewrite Ascii.eqb_refl in Hn. discriminate.
  - cbn [append starts_with] in Hs |- *. apply andb_true_iff in Hs. destruct Hs as [Hc Hs].
    rewrite Hc. cbn [andb]. apply (IH a' b); [| exact Hs].
    cbn [has_nl] in Hn. destruct (Ascii.eqb c NL); [discriminate | exact Hn].
Qed.

Lemma includes_app_nl : forall sub a b,
  sub <> "" -> has_nl sub = false -> includes sub (a ++ String NL b) = true ->
  includes sub a = true \/ includes sub b = true.
Proof.
  intros sub a b Hne Hn. induction a as [| d a IH]; intro H.
  - cbn [append includes] in H. apply orb_true_iff in H. destruct H as [H | H]; [| right; exact H].
    exfalso. destruct sub as [| c p]; [contradiction Hne; reflexivity |].
    cbn [starts_with] in H. apply andb_true_iff in H. destruct H as [Hc _].
    apply Ascii.eqb_eq in Hc. subst c. cbn [has_nl] in Hn.
    rewrite Ascii.eqb_refl in Hn. discriminate.
  - cbn [append includes] in H |- *. apply orb_true_iff in H. destruct H as [H | H].
    + left. apply orb_true_iff. left. apply (starts_with_app_nl sub (String d a) b Hn). exact H.
    + destruct (IH H) as [H' | H']; [left; apply orb_true_iff; right; exact H' | right; exact H'].
Qed.

Lemma marker_not_in_lines : forall ms,
  Forall (fun r => includes RELEVANT_MEMORIES_MARKER (sm_text r) = false) ms ->
  includes RELEVANT_MEMORIES_MARKER (String.concat NLS (map (fun r => "- " ++ sm_text r) ms)) = false.
Proof.
  intros ms H. induction H as [| r ms Hr Hall IH]; [reflexivity |].
  assert (Hline : includes RELEVANT_MEMORIES_MARKER ("- " ++ sm_text r) = false)
    by (cbn [append]; simpl; exact Hr).
  destruct ms as [| r2 ms2]; [exact Hline |].
  change (String.concat NLS (map (fun r => "- " ++ sm_text r) (r :: r2 :: ms2)))
    with (("- " ++ sm_text r) ++ String NL (String.concat NLS (map (fun r => "- " ++ sm_text r) (r2 :: ms2)))).
  apply not_true_is_false. intro E.
  apply includes_app_nl in E; [| discriminate | reflexivity].
  destruct E as [E | E]; [rewrite Hline in E | rewrite IH in E]; discriminate.
Qed.

Lemma trim_start_snoc : forall x c, is_ws c = false -> trim_start (x ++ String c EmptyString) <> "".
Proof.
  induction x as [| d x IH]; intros c Hc; cbn [append trim_start].
  - rewrite Hc. discriminate.
  - destruct (is_ws d); [apply IH; exact Hc | discriminate].
Qed.

Lemma rev_str_nonempty : forall y, y <> "" -> rev_str y <> "".
Proof.
  intros [| c y] H; [contradiction H; reflexivity |]. cbn [rev_str].
  destruct (rev_str y); discriminate.
Qed.

Lemma js_trim_nonblank_start : forall c s, is_ws c = false -> js_trim (String c s) <> "".
Proof.
  intros c s Hc. unfold js_trim. cbn [trim_start]. rewrite Hc. cbn [rev_str].
  apply rev_str_nonempty. apply trim_start_snoc. exact Hc.
Qed.

(** X25: the block [before_agent_start] injects,
    [<relevant-memories query-specific="true">...</relevant-memories>],
    does not contain the [<relevant-memories>] marker the normalizer filters
    on (unless a memory text does), so a user turn whose content is exactly
    that block is kept by [convertToMemoryMessages] and captured. *)
Theorem X_injected_block_escapes_marker (clock : nat -> Z) (uuid_of : nat -> string)
    (toISOString : Z -> string) (ms : list ScoredMemory) (i : string) (w : World)
    (Hms : Forall (fun r => includes RELEVANT_MEMORIES_MARKER (sm_text r) = false) ms) :
  includes RELEVANT_MEMORIES_MARKER (relevant_block ms) = false /\
  convertToMemoryMessages clock uuid_of toISOString
    [JObj [("role", JStr "user"); ("content", JStr (relevant_block ms)); ("id", JStr i)]] w
  = ([mkMemoryMessage "user" (relevant_block ms) i (toISOString (clock (w_ticks w)))],
     mkWorld (S (w_ticks w)) (w_uuids w)).
Proof.
  assert (Hi : includes RELEVANT_MEMORIES_MARKER (relevant_block ms) = false).
  { unfold relevant_block.
    change ("<relevant-memories query-specific=" ++ qstr "true" ++ ">" ++ NLS
            ++ String.concat NLS (map (fun r => "- " ++ sm_text r) ms) ++ NLS
            ++ "</relevant-memories>")
      with (("<relevant-memories query-specific=" ++ qstr "true" ++ ">")
            ++ String NL (String.concat NLS (map (fun r => "- " ++ sm_text r) ms)
                          ++ String NL "</relevant-memories>")).
    apply not_true_is_false. intro E.
    apply includes_app_nl in E; [| discriminate | reflexivity].
    destruct E as [E | E]; [vm_compute in E; discriminate |].
    apply includes_app_nl in E; [| discriminate | reflexivity].
    destruct E as [E | E]; [rewrite (marker_not_in_lines ms Hms) in E | vm_compute in E];
      discriminate. }
  split; [exact Hi |].
  assert (Ht : String.eqb (js_trim (relevant_block ms)) "" = false).
  { apply String.eqb_neq. apply js_trim_nonblank_start. reflexivity. }
  unfold convertToMemoryMessages, convert_turn.
  cbn -[js_trim includes relevant_block]. rewrite Ht, Hi. reflexivity.
Qed.

Lemma X_injected_block_escapes_marker_witness :
  includes RELEVANT_MEMORIES_MARKER (relevant_block (map to_scored near_hits)) = false /\
  convertToMemoryMessages ticking_clock uuid_seq iso_of
    [JObj [("role", JStr "user"); ("content", JStr (relevant_block (map to_scored near_hits)));
           ("id", JStr "msg-1")]] w0
  = ([mkMemoryMessage "user" (relevant_block (map to_scored near_hits)) "msg-1"
        (iso_of (ticking_clock (w_ticks w0)))],
     mkWorld (S (w_ticks w0)) (w_uuids w0)).
Proof.
  apply X_injected_block_escapes_marker. repeat constructor.
Defined.

(** ** The summary refresh after a capture *)

(** X26: after the capture of [agent_end], the summary view is refreshed
    only when the working-memory write was issued and did not throw and a
    [summaryViewId] is set: then [runSummaryView] is called once, and when it
    throws [MemoryNotFoundError] [ensureSummaryView] is re-run and its result
    becomes the new id; without a write, or after a failed one, no
    summary-view call is made and the id is unchanged. *)
Theorem X_agent_end_refresh (clock : nat -> Z) (uuid_of : nat -> string)
    (toISOString : Z -> string) (pc : ParsedConfig) (be : Backend) (sb : SummaryBackend)
    (sid : option string) (success : bool) (messages : option (list jsval))
    (sessionKey : option string) (w : World) (reqs : list request) (w1 : World)
    (H : agent_end clock uuid_of toISOString (to_memory_config pc) be success messages sessionKey w
         = (reqs, w1)) :
  (reqs = [] ->
     agent_end_full clock uuid_of toISOString pc be sb sid success messages sessionKey w
     = ([], w1, sid)) /\
  (forall s mms, reqs = [ReqPutWorkingMemory s mms] ->
     (be_putWorkingMemory be s mms = false ->
        agent_end_full clock uuid_of toISOString pc be sb sid success messages sessionKey w
        = ([CallMem (ReqPutWorkingMemory s mms)], w1, sid)) /\
     (be_putWorkingMemory be s mms = true -> (sid = None \/ sid = Some "") ->
        agent_end_full clock uuid_of toISOString pc be sb sid success messages sessionKey w
        = ([CallMem (ReqPutWorkingMemory s mms)], w1, sid)) /\
     (forall id, be_putWorkingMemory be s mms = true -> sid = Some id -> id <> "" ->
        (sb_runView sb id = ViewNotFound ->
           agent_end_full clock uuid_of toISOString pc be sb sid success messages sessionKey w
           = (CallMem (ReqPutWorkingMemory s mms) :: CallView (ReqRunView id)
                :: map CallView (snd (ensureSummaryView pc sb)),
              w1, fst (ensureSummaryView pc sb))) /\
        (sb_runView sb id <> ViewNotFound ->
           agent_end_full clock uuid_of toISOString pc be sb sid success messages sessionKey w
           = ([CallMem (ReqPutWorkingMemory s mms); CallView (ReqRunView id)], w1, sid)))).
Proof.
  unfold agent_end_full. rewrite H. split.
  - intros ->. reflexivity.
  - intros s mms ->. split; [intro Hw; rewrite Hw; reflexivity |].
    split.
    + intros Hw Hsid. rewrite Hw. destruct Hsid as [-> | ->]; reflexivity.
    + intros id Hw -> Hid. rewrite Hw. unfold refresh_summary, truthy_param.
      apply String.eqb_neq in Hid. rewrite Hid. split.
      * intro Hr. rewrite Hr. destruct (ensureSummaryView pc sb). reflexivity.
      * intro Hr. destruct (sb_runView sb id); [reflexivity | contradiction Hr; reflexivity |
                                                 reflexivity].
Qed.

Definition capture_turns : list jsval :=
  [JObj [("role", JStr "user"); ("content", JStr "I prefer green tea"); ("id", JStr "msg-1")]].

Lemma X_agent_end_refresh_witness :
  agent_end_full fixed_clock uuid_seq iso_of sample_parsed_config (backend_returning [])
    recreating_views (Some "view-1") true (Some capture_turns) (Some "agent:main") w0
  = (CallMem (ReqPutWorkingMemory "agent:main"
                [mkMemoryMessage "user" "I prefer green tea" "msg-1" (iso_of (fixed_clock 0%nat))])
       :: CallView (ReqRunView "view-1") :: map CallView (snd (ensureSummaryView sample_parsed_config
                                                                 recreating_views)),
     mkWorld 1 0, fst (ensureSummaryView sample_parsed_config recreating_views)).
Proof.
  destruct (X_agent_end_refresh fixed_clock uuid_seq iso_of sample_parsed_config
              (backend_returning []) recreating_views (Some "view-1") true (Some capture_turns)
              (Some "agent:main") w0
              [ReqPutWorkingMemory "agent:main"
                 [mkMemoryMessage "user" "I prefer green tea" "msg-1" (iso_of (fixed_clock 0%nat))]]
              (mkWorld 1 0) eq_refl) as [_ Hw].
  destruct (Hw "agent:main" _ eq_refl) as (_ & _ & Hrun).
  apply (proj1 (Hrun "view-1" eq_refl eq_refl ltac:(discriminate))). reflexivity.
Defined.

(** ** The extraction strategy of a capture *)

(** X27: with a parsed config, the [long_term_memory_strategy] sent with
    the working-memory write is absent when no strategy is configured, is
    [{ strategy, config: {} }] for "discrete", "summary" and "preferences"
    (a [customPrompt] is then ignored), and for "custom" always carries
    [{ prompt }] with the configured, non-empty prompt. *)
Theorem X_capture_strategy_carries_prompt (env : string -> option string) (v : jsval)
    (pc : ParsedConfig) (H : parseMemoryConfig env v = Ok pc) :
  (pc_extractionStrategy pc = None -> long_term_memory_strategy (to_memory_config pc) = None) /\
  (forall st, pc_extractionStrategy pc = Some st -> st <> Custom ->
     long_term_memory_strategy (to_memory_config pc) = Some (st, None)) /\
  (pc_extractionStrategy pc = Some Custom ->
     exists p, p <> "" /\ pc_customPrompt pc = Some p /\
       long_term_memory_strategy (to_memory_config pc) = Some (Custom, Some p)).
Proof.
  destruct (parse_ok_fields env v pc H) as (props & _ & _ & _ & _ & _ & _ & _ & _ & _ & Hc).
  unfold long_term_memory_strategy. cbn [to_memory_config cfg_extractionStrategy cfg_customPrompt].
  split; [intros ->; reflexivity |].
  split; [intros st -> Hst; destruct st; try reflexivity; contradiction Hst; reflexivity |].
  intros Hs. rewrite Hs in Hc |- *. unfold check_custom_prompt in Hc.
  destruct (truthy_param (pc_customPrompt pc)) as [p |] eqn:Ep; [| discriminate].
  exists p. unfold truthy_param in Ep. destruct (pc_customPrompt pc) as [p' |]; [| discriminate].
  destruct (String.eqb_spec p' ""); [discriminate |]. inversion Ep; subst.
  split; [assumption | split; reflexivity].
Qed.

Lemma X_capture_strategy_carries_prompt_witness :
  exists pc, parseMemoryConfig (fun _ => None) custom_config_value = Ok pc /\
  ((pc_extractionStrategy pc = None -> long_term_memory_strategy (to_memory_config pc) = None) /\
   (forall st, pc_extractionStrategy pc = Some st -> st <> Custom ->
      long_term_memory_strategy (to_memory_config pc) = Some (st, None)) /\
   (pc_extractionStrategy pc = Some Custom ->
      exists p, p <> "" /\ pc_customPrompt pc = Some p /\
        long_term_memory_strategy (to_memory_config pc) = Some (Custom, Some p))).
Proof.
  destruct (parseMemoryConfig (fun _ => None) custom_config_value) as [pc | e] eqn:E;
    [| vm_compute in E; discriminate].
  exists pc. split; [reflexivity |].
  exact (X_capture_strategy_carries_prompt (fun _ => None) custom_config_value pc E).
Defined.
